(** * Package updater: catalog synchronisation and OCI package installation

    A shallow embedding of [pkg/updater/org_config.go] (the organisation
    configuration: merged catalog, catalog-received latch, blocking lookup)
    and of the installer of the same package (staging directory, extraction
    of the package layers, repository transition). *)

From Stdlib Require Import ZArith Ascii String.
From stdpp Require Import gmap strings list fin_maps pretty.

Local Open Scope string_scope.
Local Open Scope list_scope.

(** * Catalog and organisation configuration ([org_config.go]) *)

Module OrgConfig.

(** ** Data model *)

(** [Package] represents a downloadable package. *)
Record Package := mkPackage {
  Name : string;
  Version : string;
  SHA256 : string;
  URL : string;
  Size : Z;
  Platform : string;
  Arch : string
}.

Record catalog := mkCatalog { Packages : list Package }.

(** The zero value of a Go struct: [var c catalog]. *)
Definition zero_catalog : catalog := {| Packages := [] |}.
Definition zero_Package : Package := mkPackage "" "" "" "" 0 "" "".

(** [state.ApplyState] and [state.ApplyStatus] of the remote-config client. *)
Inductive ApplyState :=
  | ApplyStateUnknown
  | ApplyStateUnacknowledged
  | ApplyStateAcknowledged
  | ApplyStateError.

Record ApplyStatus := mkApplyStatus { State : ApplyState; Error : string }.

(** [state.RawConfig]: only the raw payload is read by the updater. *)
Record RawConfig := mkRawConfig { Config : string }.

(** A Go channel of [struct{}] on which nothing is ever sent: the only
    observable fact is whether [close] was called on it. *)
Inductive chan := ChanOpen | ChanClosed.

(** [orgConfig]: the mutex [m] is rendered by running every method as one
    atomic step; [rc] is only used at construction. *)
Record orgConfig := mkOrgConfig {
  catalogReceived : chan;
  catalogReceivedSync : bool;   (* sync.Once: has [Do] already run? *)
  catalog_ : catalog
}.

(** [newOrgConfig]: a fresh channel, a fresh [sync.Once], the zero catalog. *)
Definition newOrgConfig : orgConfig :=
  {| catalogReceived := ChanOpen;
     catalogReceivedSync := false;
     catalog_ := zero_catalog |}.

(** The latch of the specification is open when the channel is closed. *)
Definition latch_open (c : orgConfig) : bool :=
  match catalogReceived c with ChanClosed => true | ChanOpen => false end.

(** ** Contexts and [select] *)

(** [ctx.Err()] once [ctx.Done()] is closed. *)
Inductive ctxErr := Canceled | DeadlineExceeded.

(** A context as seen by one [select]: [None] while [Done()] is still open,
    [Some e] once it is closed, with [e] the value of [Err()]. *)
Definition Context := option ctxErr.

(** The result of a blocking operation observed in one state of the world:
    either it cannot proceed yet, or it returns. *)
Inductive blocking (A : Type) :=
  | Blocked
  | Ready (a : A).
Arguments Blocked {A}.
Arguments Ready {A} a.

(** [waitForCatalog]: a [select] over [ctx.Done()] and [c.catalogReceived].
    With no case ready the goroutine blocks; with one case ready that case
    runs; with both ready Go picks one pseudo-randomly, which [pick]
    resolves ([true]: the [ctx.Done()] case). The result is the returned
    [error], [None] standing for [nil]. *)
Definition waitForCatalog (pick : bool) (ctx : Context) (c : orgConfig)
  : blocking (option ctxErr) :=
  match ctx, catalogReceived c with
  | None, ChanOpen => Blocked
  | Some e, ChanOpen => Ready (Some e)
  | None, ChanClosed => Ready None
  | Some e, ChanClosed => if pick then Ready (Some e) else Ready None
  end.

(** ** Lookup *)

(** The two errors built by [GetPackage] with [fmt.Errorf]. *)
Inductive lookupError :=
  | ErrCanceledWaiting (cause : ctxErr)
      (* "context canceled while waiting for catalog: %w" *)
  | ErrNotFound (pkg version : string) (known : list Package).
      (* "package %s version %s not found %v" *)

Definition matches (pkg version : string) (p : Package) : bool :=
  bool_decide (Name p = pkg) && bool_decide (Version p = version).

(** The [for _, p := range c.catalog.Packages] loop of [GetPackage]. *)
Fixpoint findPackage (pkg version : string) (ps : list Package) : option Package :=
  match ps with
  | [] => None
  | p :: rest => if matches pkg version p then Some p else findPackage pkg version rest
  end.

Definition GetPackage (pick : bool) (ctx : Context) (pkg version : string)
    (c : orgConfig) : blocking (Package * option lookupError) :=
  match waitForCatalog pick ctx c with
  | Blocked => Blocked
  | Ready (Some err) => Ready (zero_Package, Some (ErrCanceledWaiting err))
  | Ready None =>
      match findPackage pkg version (Packages (catalog_ c)) with
      | Some p => Ready (p, None)
      | None =>
          Ready (zero_Package,
                 Some (ErrNotFound pkg version (Packages (catalog_ c))))
      end
  end.

(** ** The catalog update callback *)

Section Update.

(** [json.Unmarshal(data, &v)] at type [catalog], with [v] a fresh zero
    value: the value left in [v] and the error ([None] for [nil]). *)
Variable unmarshal : string → catalog * option string.

(** The embedded baseline catalog, [data/catalog.json]. *)
Variable rawCatalog : string.

(** The first [range] loop: decode every config in iteration order and
    append its packages; the first failure stops the loop with the
    failing config path and the error string. *)
Fixpoint decodeConfigs (it : list (string * RawConfig)) (mergedCatalog : catalog)
  : (string * string) + catalog :=
  match it with
  | [] => inr mergedCatalog
  | (configPath, config) :: rest =>
      match unmarshal (Config config) with
      | (_, Some err) => inl (configPath, err)
      | (cat, None) =>
          decodeConfigs rest
            {| Packages := Packages mergedCatalog ++ Packages cat |}
      end
  end.

(** [close(ch)]: closing a closed channel panics. *)
Definition close (ch : chan) : option chan :=
  match ch with ChanOpen => Some ChanClosed | ChanClosed => None end.

(** [c.catalogReceivedSync.Do(func() { close(c.catalogReceived) })]. *)
Definition closeOnce (c : orgConfig) : option orgConfig :=
  if catalogReceivedSync c then Some c
  else
    match close (catalogReceived c) with
    | Some ch =>
        Some {| catalogReceived := ch;
                catalogReceivedSync := true;
                catalog_ := catalog_ c |}
    | None => None
    end.

(** [onCatalogUpdate]. A Go map is ranged over in an unspecified order
    that may differ between two loops: [it1] and [it2] are the orders in
    which the first and the second [range] visit [catalogConfigs]. The
    result is the list of calls made to [applyStateCallback], in order,
    and the new state ([None] if the goroutine panicked). *)
Definition onCatalogUpdate (it1 it2 : list (string * RawConfig)) (c : orgConfig)
  : list (string * ApplyStatus) * option orgConfig :=
  let mergedCatalog := fst (unmarshal rawCatalog) in
  match decodeConfigs it1 mergedCatalog with
  | inl (configPath, err) =>
      ([(configPath, {| State := ApplyStateError; Error := err |})], Some c)
  | inr mergedCatalog =>
      (map (λ kv, (fst kv, {| State := ApplyStateAcknowledged; Error := "" |})) it2,
       closeOnce {| catalogReceived := catalogReceived c;
                    catalogReceivedSync := catalogReceivedSync c;
                    catalog_ := mergedCatalog |})
  end.

(** [l] is an order in which [range] may visit the map [m]. *)
Definition range_order (m : gmap string RawConfig) (l : list (string * RawConfig)) : Prop :=
  l ≡ₚ map_to_list m.

(** Number of calls of the callback for one config path. *)
Definition replies_to (configPath : string) (acks : list (string * ApplyStatus)) : nat :=
  length (filter (λ a, fst a = configPath) acks).

(** Does every config of this iteration decode? *)
Definition decodes (kv : string * RawConfig) : bool :=
  match snd (unmarshal (Config (snd kv))) with None => true | Some _ => false end.

Definition accepted (it1 : list (string * RawConfig)) : bool := forallb decodes it1.

(** The packages a config carries. *)
Definition received (kv : string * RawConfig) : list Package :=
  Packages (fst (unmarshal (Config (snd kv)))).

Definition baseline : list Package := Packages (fst (unmarshal rawCatalog)).

(** One delivery of the subscription: the two visiting orders. *)
Record delivery := mkDelivery {
  first_range : list (string * RawConfig);
  second_range : list (string * RawConfig)
}.

(** The states the configuration goes through under a sequence of
    deliveries; [None] once a delivery has panicked. *)
Fixpoint deliver (ds : list delivery) (c : orgConfig) : option orgConfig :=
  match ds with
  | [] => Some c
  | d :: rest =>
      match snd (onCatalogUpdate (first_range d) (second_range d) c) with
      | Some c' => deliver rest c'
      | None => None
      end
  end.

(** States reachable from [newOrgConfig] through the callback. *)
Inductive reachable : orgConfig → Prop :=
  | reach_new : reachable newOrgConfig
  | reach_update c it1 it2 c' :
      reachable c →
      snd (onCatalogUpdate it1 it2 c) = Some c' →
      reachable c'.

(** Number of times the latch goes from closed to open along a run. *)
Fixpoint openings (ds : list delivery) (c : orgConfig) : nat :=
  match ds with
  | [] => 0
  | d :: rest =>
      match snd (onCatalogUpdate (first_range d) (second_range d) c) with
      | Some c' =>
          (if negb (latch_open c) && latch_open c' then 1 else 0)
          + openings rest c'
      | None => 0
      end
  end.

End Update.

(** ** Specification vocabulary *)

(** The specification of one lookup: the first entry with the requested
    name and version, with nothing matching before it. *)
Definition first_match (pkg version : string) (ps : list Package) (p : Package) : Prop :=
  ∃ before after,
    ps = before ++ p :: after
    ∧ Name p = pkg ∧ Version p = version
    ∧ Forall (λ q, ¬ (Name q = pkg ∧ Version q = version)) before.

Definition no_match (pkg version : string) (ps : list Package) : Prop :=
  Forall (λ q, ¬ (Name q = pkg ∧ Version q = version)) ps.

(** What a call of [GetPackage] may do in a given state of the context
    and of the latch. *)
Inductive GetPackage_may (ctx : Context) (c : orgConfig) (pkg version : string)
  : blocking (Package * option lookupError) → Prop :=
  | may_block :
      ctx = None → latch_open c = false →
      GetPackage_may ctx c pkg version Blocked
  | may_cancel e :
      ctx = Some e →
      GetPackage_may ctx c pkg version
        (Ready (zero_Package, Some (ErrCanceledWaiting e)))
  | may_find p :
      latch_open c = true →
      first_match pkg version (Packages (catalog_ c)) p →
      GetPackage_may ctx c pkg version (Ready (p, None))
  | may_miss :
      latch_open c = true →
      no_match pkg version (Packages (catalog_ c)) →
      GetPackage_may ctx c pkg version
        (Ready (zero_Package,
                Some (ErrNotFound pkg version (Packages (catalog_ c))))).

(** Replace the host fields of a catalog entry. *)
Definition set_host (h : Package → string * string) (p : Package) : Package :=
  {| Name := Name p; Version := Version p; SHA256 := SHA256 p; URL := URL p;
     Size := Size p; Platform := fst (h p); Arch := snd (h p) |}.

Definition rehost (h : Package → string * string) (c : orgConfig) : orgConfig :=
  {| catalogReceived := catalogReceived c;
     catalogReceivedSync := catalogReceivedSync c;
     catalog_ := {| Packages := set_host h <$> Packages (catalog_ c) |} |}.

(** The once flag and the channel move together. *)
Definition consistent (c : orgConfig) : Prop :=
  catalogReceivedSync c = latch_open c.

(** ** Default versions *)

Section Defaults.

(** [json.Unmarshal(data, &defaults)] at type [map[string]string], with
    [defaults] a nil map: the map left in [defaults] and the error. *)
Variable unmarshal_defaults : string → gmap string string * option string.

(** The embedded default versions, [data/defaults.json]. *)
Variable rawDefaults : string.

(** The errors of [GetDefaultPackage]: its own, or the one [GetPackage]
    returned, handed on as it is. *)
Inductive defaultError :=
  | ErrUnmarshalDefaults (msg : string)
      (* "could not unmarshal defaults: %w" *)
  | ErrGetPackage (e : lookupError).

(** [defaults[pkg]]: a missing key reads as the zero value of [string]. *)
Definition index (defaults : gmap string string) (pkg : string) : string :=
  match defaults !! pkg with
  | Some version => version
  | None => ""
  end.

Definition GetDefaultPackage (pick : bool) (ctx : Context) (pkg : string)
    (c : orgConfig) : blocking (Package * option defaultError) :=
  match unmarshal_defaults rawDefaults with
  | (_, Some err) => Ready (zero_Package, Some (ErrUnmarshalDefaults err))
  | (defaults, None) =>
      match GetPackage pick ctx pkg (index defaults pkg) c with
      | Blocked => Blocked
      | Ready (p, None) => Ready (p, None)
      | Ready (p, Some e) => Ready (p, Some (ErrGetPackage e))
      end
  end.

End Defaults.

(** ** Histories of deliveries *)

Section History.

Variable unmarshal : string → catalog * option string.

(** The last delivery of a history that decoded entirely. *)
Fixpoint last_accepted (ds : list delivery) : option delivery :=
  match ds with
  | [] => None
  | d :: rest =>
      match last_accepted rest with
      | Some d' => Some d'
      | None => if accepted unmarshal (first_range d) then Some d else None
      end
  end.

End History.

End OrgConfig.

(** * Installer and package extraction *)

Module Installer.

Definition datadogPackageLayerMediaType : string :=
  "application/vnd.datadog.package.layer.v1.tar+zstd".

Definition datadogPackageMaxSize : Z := Z.shiftl 3 30. (* 3GiB *)

(** ** Errors *)

(** The error values at the leaves of an error chain. *)
Inductive errKind :=
  | PayloadTooLarge
  | PayloadMalicious
  | AlreadyInstalled
  | InvalidState
  | InvalidVersion
  | StagingNotColocated
  | ErrExist
  | ErrNotExist
  | Opaque (msg : string).   (* an error of a collaborator, by its text *)

(** A Go [error]: a leaf, or [fmt.Errorf(msg + ": %w", cause)]. *)
Inductive error :=
  | ErrLeaf (k : errKind)
  | Errorf (msg : string) (cause : error).

(** What [errors.Is] sees at the end of the [Unwrap] chain. *)
Fixpoint root_cause (e : error) : errKind :=
  match e with
  | ErrLeaf k => k
  | Errorf _ cause => root_cause cause
  end.

Inductive result (A : Type) :=
  | Ok (a : A)
  | Err (e : error).
Arguments Ok {A} a.
Arguments Err {A} e.

(** ** Paths and the file system *)

Fixpoint is_prefix (a b : string) : bool :=
  match a, b with
  | EmptyString, _ => true
  | String x a', String y b' => Ascii.eqb x y && is_prefix a' b'
  | String _ _, EmptyString => false
  end.

Fixpoint ends_with_sep (s : string) : bool :=
  match s with
  | EmptyString => false
  | String c EmptyString => Ascii.eqb c "/"%char
  | String _ rest => ends_with_sep rest
  end.

(** [joinPath] of package [os]: no second separator after a trailing one. *)
Definition joinPath (dir name : string) : string :=
  if ends_with_sep dir then dir +:+ name else dir +:+ "/" +:+ name.

(** [p] is [dir] itself or lies below it. *)
Definition within (dir p : string) : bool :=
  bool_decide (p = dir) || is_prefix (joinPath dir "") p.

Inductive node :=
  | Dir
  | File (size : Z)
  | Symlink (target : string).

(** The part of the operating system the installer touches: the default
    temporary directory ([os.TempDir()]), the mount table (mount point and
    device), the directory tree keyed by absolute path, the stream of
    names drawn by [os.MkdirTemp] with the number of names drawn so far,
    and the paths the system refuses to unlink (an entry of a directory
    without write permission, an immutable file, a busy mount point). *)
Record OS := mkOS {
  TempDir : string;
  mounts : list (string * Z);
  files : gmap string node;
  rand : nat → string;
  drawn : nat;
  pinned : string → bool
}.

Definition set_files (f : gmap string node → gmap string node) (o : OS) : OS :=
  {| TempDir := TempDir o; mounts := mounts o; files := f (files o);
     rand := rand o; drawn := drawn o; pinned := pinned o |}.

Definition draw (o : OS) : OS :=
  {| TempDir := TempDir o; mounts := mounts o; files := files o;
     rand := rand o; drawn := S (drawn o); pinned := pinned o |}.

(** The mount points above a path, and the device of the deepest one
    (device [0] when the table has none). *)
Definition covering (o : OS) (p : string) : list (string * Z) :=
  filter (λ m, Is_true (within (fst m) p)) (mounts o).

Definition deeper (a b : string * Z) : string * Z :=
  if (String.length (fst a) <? String.length (fst b))%nat then b else a.

Definition device_of (o : OS) (p : string) : Z :=
  snd (foldr deeper ("", 0%Z) (covering o p)).

(** The retry loop of [os.MkdirTemp]: draw a name, [Mkdir] it, draw again
    while the name exists. *)
Fixpoint mkdirTempLoop (fuel : nat) (dir pfx : string) (o : OS) : result string * OS :=
  match fuel with
  | O => (Err (ErrLeaf ErrExist), o)
  | S fuel' =>
      let name := joinPath dir pfx +:+ rand o (drawn o) in
      match files o !! name with
      | Some _ => mkdirTempLoop fuel' dir pfx (draw o)
      | None =>
          match files o !! dir with
          | Some Dir => (Ok name, set_files (insert name Dir) (draw o))
          | Some _ => (Err (ErrLeaf (Opaque "not a directory")), draw o)
          | None => (Err (ErrLeaf ErrNotExist), draw o)
          end
      end
  end.

(** [os.MkdirTemp(dir, pattern)] for a pattern without [*]: an empty [dir]
    stands for [os.TempDir()]; at most 10000 names are tried. *)
Definition MkdirTemp (dir pattern : string) (o : OS) : result string * OS :=
  let dir := if decide (dir = "") then TempDir o else dir in
  mkdirTempLoop (N.to_nat 10000) dir pattern o.

(** An entry the system refuses to unlink lies at or below [p]: [p] then
    cannot be removed, being that entry or a directory that is not empty. *)
Definition stuck (o : OS) (p : string) : bool :=
  existsb (λ kv, within p (fst kv) && pinned o (fst kv)) (map_to_list (files o)).

(** [os.RemoveAll(path)]: removes [path] and any children it contains. It
    removes everything it can and returns the first error it met; an empty
    path and a missing path are not errors. Which error it was is not told
    apart: both callers discard it. *)
Definition RemoveAll (path : string) (o : OS) : option error * OS :=
  if decide (path = "") then (None, o)
  else
    (if stuck o path then Some (ErrLeaf (Opaque "unlinkat: permission denied"))
     else None,
     set_files (filter (λ kv, ¬ Is_true (within path (fst kv))
                              ∨ Is_true (stuck o (fst kv)))) o).

(** Bytes held by the regular files at or below [dir]. *)
Definition node_bytes (n : node) : Z :=
  match n with File size => size | _ => 0%Z end.

Definition disk_usage (dir : string) (fs : gmap string node) : Z :=
  map_fold (λ p n acc, if within dir p then (node_bytes n + acc)%Z else acc) 0%Z fs.

(** ** OCI images *)

(** The tar entry kinds of [archive/tar] the extractor distinguishes. *)
Inductive entryKind :=
  | TypeReg
  | TypeDir
  | TypeSymlink (target : string)
  | TypeLink
  | TypeChar
  | TypeBlock
  | TypeFifo.

Record tarEntry := mkEntry {
  entryName : string;
  entryType : entryKind;
  entrySize : Z
}.

(** The uncompressed byte stream of a layer, as the tar entries it holds;
    its length in bytes is the sum of the entry sizes. *)
Definition Reader := list tarEntry.

Definition stream_size (r : Reader) : Z :=
  foldr (λ e acc, (entrySize e + acc)%Z) 0%Z r.

(** The capability set of [oci.Layer] and [oci.Image] used by the
    extractor, each method with its result. *)
Record Layer := mkLayer {
  MediaType : result string;
  Uncompressed : result Reader
}.

Record Image := mkImage { Layers : result (list Layer) }.

(** ** Effects *)

(** Calls that leave the installer, in the order they are made. *)
Inductive event :=
  | EvMkdirTemp (path : string)
  | EvExtractTar (r : Reader) (dir : string) (maxSize : Z)
  | EvCreate (pkg version dir : string)
  | EvGet (pkg : string)
  | EvSetExperiment (version dir : string)
  | EvRemoveAll (path : string).

Record World := mkWorld { os : OS; trace : list event }.

(** State and error monad of the installer. *)
Definition M (A : Type) : Type := World → result A * World.

#[export] Instance M_ret : MRet M := λ A a w, (Ok a, w).

#[export] Instance M_bind : MBind M := λ A B f m w,
  match m w with
  | (Ok a, w') => f a w'
  | (Err e, w') => (Err e, w')
  end.

Definition fail {A} (e : error) : M A := λ w, (Err e, w).

(** [if err != nil { return fmt.Errorf(msg + ": %w", err) }] *)
Definition wrapf {A} (msg : string) (m : M A) : M A := λ w,
  match m w with
  | (Err e, w') => (Err (Errorf msg e), w')
  | r => r
  end.

(** [defer cleanup()]: runs when the function returns, whatever it returns. *)
Definition defer {A} (cleanup : World → World) (body : M A) : M A := λ w,
  let '(r, w') := body w in (r, cleanup w').

(** A call returning only an [error], recorded in the trace. *)
Definition call (ev : event) (op : OS → option error * OS) : M unit := λ w,
  let '(r, o) := op (os w) in
  (match r with None => Ok tt | Some e => Err e end,
   {| os := o; trace := trace w ++ [ev] |}).

Definition os_MkdirTemp (dir pattern : string) : M string := λ w,
  match MkdirTemp dir pattern (os w) with
  | (Ok name, o) => (Ok name, {| os := o; trace := trace w ++ [EvMkdirTemp name] |})
  | (Err e, o) => (Err e, {| os := o; trace := trace w |})
  end.

(** [defer os.RemoveAll(path)]: the error of the call is dropped. *)
Definition os_RemoveAll (path : string) (w : World) : World :=
  {| os := snd (RemoveAll path (os w)); trace := trace w ++ [EvRemoveAll path] |}.

(** ** The repository package, as the installer uses it *)

(** The interface of [repository.Repositories] and [repository.Repository]
    that the installer calls. The package itself is outside the tree: the
    store lives in the file system, [Create] and [SetExperiment] may change
    it, [Get] is an accessor and only reads it. *)
Class RepositoryStore (Repositories Repository : Type) := {
  rootPath : Repositories → string;
  Create : Repositories → string → string → string → OS → option error * OS;
  Get : Repositories → string → OS → result Repository;
  SetExperiment : Repository → string → string → OS → option error * OS
}.

Section Install.

Context {Repositories Repository : Type}.
Context `{!RepositoryStore Repositories Repository}.

(** [extractTarArchive(reader, destinationPath, maxSize)]. *)
Variable extractTarArchive : Reader → string → Z → OS → option error * OS.

Record installer := mkInstaller { repositories : Repositories }.

Definition newInstaller (repositories : Repositories) : installer :=
  {| repositories := repositories |}.

(** The [for _, layer := range layers] loop of [extractPackageLayers]. *)
Fixpoint extractLayers (layers : list Layer) (dir : string) : M unit :=
  match layers with
  | [] => mret tt
  | layer :: rest =>
      match MediaType layer with
      | Err e => fail (Errorf "could not get layer media type" e)
      | Ok mediaType =>
          if decide (mediaType = datadogPackageLayerMediaType) then
            match Uncompressed layer with
            | Err e => fail (Errorf "could not uncompress layer" e)
            | Ok uncompressedLayer =>
                _ ← wrapf "could not extract layer"
                      (call (EvExtractTar uncompressedLayer dir datadogPackageMaxSize)
                            (extractTarArchive uncompressedLayer dir datadogPackageMaxSize));
                extractLayers rest dir
            end
          else extractLayers rest dir
      end
  end.

Definition extractPackageLayers (image : Image) (dir : string) : M unit :=
  match Layers image with
  | Err e => fail (Errorf "could not get image layers" e)
  | Ok layers => extractLayers layers dir
  end.

Definition installStable (i : installer) (pkg version : string) (image : Image)
  : M unit :=
  tmpDir ← wrapf "could not create temporary directory" (os_MkdirTemp "" "");
  defer (os_RemoveAll tmpDir)
    (_ ← wrapf "could not extract package layers" (extractPackageLayers image tmpDir);
     call (EvCreate pkg version tmpDir) (Create (repositories i) pkg version tmpDir)).

Definition repositories_Get (rs : Repositories) (pkg : string) : M Repository := λ w,
  (Get rs pkg (os w), {| os := os w; trace := trace w ++ [EvGet pkg] |}).

Definition installExperiment (i : installer) (pkg version : string) (image : Image)
  : M unit :=
  tmpDir ← wrapf "could not create temporary directory" (os_MkdirTemp "" "");
  defer (os_RemoveAll tmpDir)
    (_ ← wrapf "could not extract package layers" (extractPackageLayers image tmpDir);
     repository ← wrapf "could not get repository" (repositories_Get (repositories i) pkg);
     call (EvSetExperiment version tmpDir) (SetExperiment repository version tmpDir)).

(** The layers the extractor hands to [extractTarArchive]. *)
Definition is_payload (layer : Layer) : bool :=
  match MediaType layer with
  | Ok mediaType => bool_decide (mediaType = datadogPackageLayerMediaType)
  | Err _ => false
  end.

(** The streams of the payload layers, in layer order. *)
Definition payload_streams (layers : list Layer) : list Reader :=
  omap (λ layer,
          if is_payload layer then
            match Uncompressed layer with
            | Ok r => Some r
            | Err _ => None
            end
          else None) layers.

(** The calls of [extractTarArchive] a full pass over [layers] makes. *)
Definition extract_events (dir : string) (layers : list Layer) : list event :=
  (λ r, EvExtractTar r dir datadogPackageMaxSize) <$> payload_streams layers.

(** The extractor writes nowhere but at or below its destination. *)
Definition confined : Prop :=
  ∀ r dir maxSize o p,
    within dir p = false →
    files (snd (extractTarArchive r dir maxSize o)) !! p = files o !! p.

(** Is the event a repository transition? *)
Definition is_transition (ev : event) : bool :=
  match ev with
  | EvCreate _ _ _ | EvSetExperiment _ _ => true
  | _ => false
  end.

(** No repository transition was invoked between two worlds. *)
Definition no_transition_since (w w' : World) : Prop :=
  ∃ evs, trace w' = trace w ++ evs
         ∧ Forall (λ ev, is_transition ev = false) evs.

(** Every path that is not at or below [dir] holds what it held. *)
Definition same_outside (dir : string) (o o' : OS) : Prop :=
  ∀ p, within dir p = false → files o' !! p = files o !! p.

(** Whatever is left at or below [dir] is an entry the system refuses
    to unlink, or a directory that still holds one. *)
Definition swept (dir : string) (o : OS) : Prop :=
  ∀ p, within dir p = true → is_Some (files o !! p) →
       ∃ q, within p q = true ∧ pinned o q = true ∧ is_Some (files o !! q).

(** The streams [rs] extracted into [dir] one after the other, up to the
    first one the extractor refuses. *)
Fixpoint extract_streams (rs : list Reader) (dir : string) (o : OS)
  : option error * OS :=
  match rs with
  | [] => (None, o)
  | r :: rest =>
      match extractTarArchive r dir datadogPackageMaxSize o with
      | (None, o') => extract_streams rest dir o'
      | (Some e, o') => (Some (Errorf "could not extract layer" e), o')
      end
  end.

End Install.

(** ** Failures of the extraction *)

Section Failure.

Variable extractTarArchive : Reader → string → Z → OS → option error * OS.

(** The ways the turn of the loop on one layer ends the extraction with
    the error [e]: the media type cannot be read, the stream of a payload
    layer cannot be opened, or the extractor refuses it. *)
Definition layer_failure (dir : string) (e : error) (layer : Layer) : Prop :=
  ∃ e0,
    (MediaType layer = Err e0
     ∧ e = Errorf "could not get layer media type" e0)
    ∨ (is_payload layer = true ∧ Uncompressed layer = Err e0
       ∧ e = Errorf "could not uncompress layer" e0)
    ∨ (is_payload layer = true
       ∧ ∃ r o, Uncompressed layer = Ok r
                ∧ fst (extractTarArchive r dir datadogPackageMaxSize o) = Some e0
                ∧ e = Errorf "could not extract layer" e0).

End Failure.

End Installer.

(** * Collaborators whose source is outside the tree *)

Module SpecModel.
Import Installer.

(** ** The tar extractor *)

Fixpoint has_dotdot (s : string) : bool :=
  match s with
  | EmptyString => false
  | String a rest =>
      (Ascii.eqb a "."%char &&
       match rest with String b _ => Ascii.eqb b "."%char | EmptyString => false end)
      || has_dotdot rest
  end.

(** A path that is absolute or contains [..]. *)
Definition path_unsafe (name : string) : bool :=
  is_prefix "/" name || has_dotdot name.

(** Regular files, directories and symlinks that stay inside the
    destination are accepted; every other entry is rejected. *)
Definition entry_accepted (e : tarEntry) : bool :=
  negb (path_unsafe (entryName e)) &&
  match entryType e with
  | TypeReg | TypeDir => true
  | TypeSymlink target => negb (path_unsafe target)
  | TypeLink | TypeChar | TypeBlock | TypeFifo => false
  end.

Definition node_of (e : tarEntry) : node :=
  match entryType e with
  | TypeDir => Dir
  | TypeSymlink target => Symlink target
  | _ => File (entrySize e)
  end.

(** The entries are streamed into the destination one after the other; a
    rejected entry stops the stream. *)
Fixpoint writeEntries (r : Reader) (dir : string) (o : OS) : option error * OS :=
  match r with
  | [] => (None, o)
  | e :: rest =>
      if entry_accepted e then
        writeEntries rest dir
          (set_files (insert (joinPath dir (entryName e)) (node_of e)) o)
      else (Some (ErrLeaf PayloadMalicious), o)
  end.

(** Modelled from the spec: [extractTarArchive], whose source file is not
    in the tree. Section 4.2: the uncompressed tar entries are streamed
    into the destination under a byte budget; a stream longer than the
    budget aborts with [PayloadTooLarge] before any byte is written; an
    entry with an unsafe path, an escaping symlink or another kind is
    rejected with [PayloadMalicious]; an empty stream is a no-op. *)
Definition extractTarArchive (reader : Reader) (destinationPath : string)
    (maxSize : Z) (o : OS) : option error * OS :=
  if (maxSize <? stream_size reader)%Z then (Some (ErrLeaf PayloadTooLarge), o)
  else writeEntries reader destinationPath o.

(** ** The repository store *)

Record Repositories := mkRepositories { root : string }.
Record Repository := mkRepository { repoRoot : string; repoPkg : string }.

Definition pkgDir (r pkg : string) : string := joinPath r pkg.
Definition versionDir (r pkg version : string) : string := joinPath (pkgDir r pkg) version.
Definition linkPath (r pkg link : string) : string := joinPath (pkgDir r pkg) link.

(** [rename(src, dst)] of a directory: every path at or below [src] moves
    to the same place below [dst]. *)
Definition rekey (src dst p : string) : string :=
  if within src p
  then dst +:+ substring (String.length src) (String.length p - String.length src) p
  else p.

Definition rename_tree (src dst : string) (fs : gmap string node) : gmap string node :=
  list_to_map ((λ kv, (rekey src dst (fst kv), snd kv)) <$> map_to_list fs).

(** Is the version directory [dir] the target of the link [link]? *)
Definition points_to (o : OS) (link dir : string) : bool :=
  match files o !! link with
  | Some (Symlink target) => bool_decide (target = dir)
  | _ => false
  end.

(** Modelled from the spec: [Repositories.Create], whose source file is
    not in the tree. Section 4.1: fails with [AlreadyInstalled] if [stable]
    exists; the staging directory is renamed to [<root>/<pkg>/<version>],
    which fails with [StagingNotColocated] across file systems; then
    [stable] points at the version directory. *)
Definition Create_spec (rs : Repositories) (pkg version stagingDir : string) (o : OS)
  : option error * OS :=
  let r := root rs in
  match files o !! linkPath r pkg "stable" with
  | Some _ => (Some (ErrLeaf AlreadyInstalled), o)
  | None =>
      if decide (device_of o stagingDir = device_of o r) then
        (None,
         set_files (λ fs,
           <[linkPath r pkg "stable" := Symlink (versionDir r pkg version)]>
             (<[pkgDir r pkg := Dir]>
                (rename_tree stagingDir (versionDir r pkg version) fs))) o)
      else (Some (ErrLeaf StagingNotColocated), o)
  end.

(** Modelled from the spec: [Repositories.Get], the typed accessor of
    section 4.1, for which the spec lists no failure. *)
Definition Get_spec (rs : Repositories) (pkg : string) (o : OS) : result Repository :=
  Ok {| repoRoot := root rs; repoPkg := pkg |}.

(** Modelled from the spec: [Repository.SetExperiment], whose source file
    is not in the tree. Section 4.1: [stable] must exist and differ from
    [version]; setting the experiment it already has deletes the staging
    directory and changes nothing else; otherwise staging is moved to the
    version directory unless that is present, [experiment] is swung, and a
    prior experiment directory no pointer references is deleted. *)
Definition SetExperiment_spec (rp : Repository) (version stagingDir : string) (o : OS)
  : option error * OS :=
  let r := repoRoot rp in
  let pkg := repoPkg rp in
  let target := versionDir r pkg version in
  match files o !! linkPath r pkg "stable" with
  | Some (Symlink stable) =>
      if decide (stable = target) then (Some (ErrLeaf InvalidVersion), o)
      else if points_to o (linkPath r pkg "experiment") target
      then (None, snd (RemoveAll stagingDir o))
      else if decide (device_of o stagingDir = device_of o r) then
        let moved :=
          match files o !! target with
          | Some _ => o
          | None => set_files (rename_tree stagingDir target) o
          end in
        let swung :=
          set_files (insert (linkPath r pkg "experiment") (Symlink target)) moved in
        match files o !! linkPath r pkg "experiment" with
        | Some (Symlink prior) =>
            if bool_decide (prior = stable)
               || points_to o (linkPath r pkg "previous") prior
            then (None, swung)
            else (None, snd (RemoveAll prior swung))
        | _ => (None, swung)
        end
      else (Some (ErrLeaf StagingNotColocated), o)
  | _ => (Some (ErrLeaf InvalidState), o)
  end.

#[export] Instance spec_store : RepositoryStore Repositories Repository := {|
  rootPath := root;
  Create := Create_spec;
  Get := Get_spec;
  SetExperiment := SetExperiment_spec
|}.

End SpecModel.

(** * Sample data *)

Module Samples.
Import OrgConfig Installer SpecModel.

(** The double quote, to write JSON documents. *)
Definition dq : string := String "034"%char EmptyString.

Definition doc_empty : string := "{}".
Definition doc_truncated : string := "{".
Definition doc_agent_751 : string :=
  "{" +:+ dq +:+ "packages" +:+ dq +:+ ":[{" +:+ dq +:+ "package" +:+ dq +:+ ":"
      +:+ dq +:+ "agent" +:+ dq +:+ "," +:+ dq +:+ "version" +:+ dq +:+ ":"
      +:+ dq +:+ "7.51.0" +:+ dq +:+ "}]}".
Definition doc_agent_750 : string :=
  "{" +:+ dq +:+ "packages" +:+ dq +:+ ":[{" +:+ dq +:+ "package" +:+ dq +:+ ":"
      +:+ dq +:+ "agent" +:+ dq +:+ "," +:+ dq +:+ "version" +:+ dq +:+ ":"
      +:+ dq +:+ "7.50.0" +:+ dq +:+ "}]}".

Definition agent_750 : Package := mkPackage "agent" "7.50.0" "" "" 0 "" "".
Definition agent_751 : Package := mkPackage "agent" "7.51.0" "" "" 0 "" "".

(** What [json.Unmarshal] returns on the four documents above; no other
    document is used below, and every other one is refused here. *)
Definition sample_unmarshal (data : string) : catalog * option string :=
  if decide (data = doc_empty) then (zero_catalog, None)
  else if decide (data = doc_agent_751) then ({| Packages := [agent_751] |}, None)
  else if decide (data = doc_agent_750) then ({| Packages := [agent_750] |}, None)
  else (zero_catalog, Some "unexpected end of JSON input").

Definition cfg_ok : RawConfig := {| Config := doc_agent_751 |}.
Definition cfg_bad : RawConfig := {| Config := doc_truncated |}.

Definition two_configs : gmap string RawConfig :=
  <["a" := cfg_ok]> (<["b" := cfg_bad]> ∅).

Definition one_config : gmap string RawConfig := <["a" := cfg_ok]> ∅.

(** Scenario S5: the baseline knows 7.50.0, the remote config adds 7.51.0. *)
Definition merged_state : orgConfig :=
  {| catalogReceived := ChanClosed;
     catalogReceivedSync := true;
     catalog_ := {| Packages := [agent_750; agent_751] |} |}.

(** The same catalog with host fields that match no machine. *)
Definition foreign (p : Package) : string * string := ("plan9", "mips").

(** A host with the repository on its own file system. *)
Definition host_files : gmap string node :=
  list_to_map [("/", Dir); ("/tmp", Dir); ("/opt", Dir); ("/opt/datadog-packages", Dir)].

Definition host : OS :=
  {| TempDir := "/tmp";
     mounts := [("/", 1%Z); ("/opt/datadog-packages", 2%Z)];
     files := host_files;
     rand := λ n, pretty (N.of_nat n + 1000)%N;
     drawn := 0;
     pinned := λ _, false |}.

(** The same host with everything on the root file system. *)
Definition flat_host : OS :=
  {| TempDir := "/tmp";
     mounts := [("/", 1%Z)];
     files := host_files;
     rand := λ n, pretty (N.of_nat n + 1000)%N;
     drawn := 0;
     pinned := λ _, false |}.

Definition packages : Repositories := {| root := "/opt/datadog-packages" |}.

Definition GiB : Z := Z.shiftl 1 30.

Definition payload (r : Reader) : Layer :=
  {| MediaType := Ok datadogPackageLayerMediaType; Uncompressed := Ok r |}.

Definition config_layer : Layer :=
  {| MediaType := Ok "application/vnd.oci.image.config.v1+json";
     Uncompressed := Ok [mkEntry "config.json" TypeReg 100] |}.

(** Scenario S1: a payload holding [bin/agent], four bytes long. *)
Definition agent_image : Image :=
  {| Layers := Ok [config_layer;
                   payload [mkEntry "bin" TypeDir 0; mkEntry "bin/agent" TypeReg 4]] |}.

(** Two payload layers of 2 GiB each. *)
Definition two_layer_image : Image :=
  {| Layers := Ok [payload [mkEntry "a" TypeReg (2 * GiB)];
                   payload [mkEntry "b" TypeReg (2 * GiB)]] |}.

(** One payload layer of 4 GiB. *)
Definition oversized_image : Image :=
  {| Layers := Ok [payload [mkEntry "a" TypeReg (4 * GiB)]] |}.

(** A payload layer within the budget followed by one beyond it. *)
Definition late_oversized_image : Image :=
  {| Layers := Ok [payload [mkEntry "a" TypeReg (2 * GiB)];
                   payload [mkEntry "b" TypeReg (4 * GiB)]] |}.

(** An image whose payload layer holds nothing. *)
Definition empty_payload_image : Image := {| Layers := Ok [payload []] |}.

(** An image without payload layer. *)
Definition bare_image : Image := {| Layers := Ok [config_layer] |}.

(** The [i]-th of a family of distinct file names. *)
Fixpoint nth_name (i : nat) : string :=
  match i with
  | O => "a"
  | S j => String "a"%char (nth_name j)
  end.

(** A payload layer holding one file of exactly the budget. *)
Definition full_layer (i : nat) : Layer :=
  payload [mkEntry (nth_name i) TypeReg datadogPackageMaxSize].

Definition full_image (n : nat) : Image :=
  {| Layers := Ok (full_layer <$> seq 0 n) |}.

Definition start (o : OS) : World := {| os := o; trace := [] |}.

(** A machine holding an empty staging directory and nothing else. *)
Definition scratch : OS :=
  {| TempDir := "/tmp";
     mounts := [];
     files := {["/staging" := Dir]};
     rand := λ n, pretty (N.of_nat n);
     drawn := 0;
     pinned := λ _, false |}.

(** Hosts on which something of the staging directory cannot be removed:
    the directory itself, or a file of a read-only directory of the payload. *)
Definition stubborn_host : OS :=
  {| TempDir := "/tmp";
     mounts := [("/", 1%Z)];
     files := host_files;
     rand := λ n, pretty (N.of_nat n + 1000)%N;
     drawn := 0;
     pinned := λ p, bool_decide (p = "/tmp/1000") |}.

Definition read_only_host : OS :=
  {| TempDir := "/tmp";
     mounts := [("/", 1%Z)];
     files := host_files;
     rand := λ n, pretty (N.of_nat n + 1000)%N;
     drawn := 0;
     pinned := λ p, bool_decide (p = "/tmp/1000/ro/f") |}.

(** A payload layer with a read-only directory, then a layer beyond the
    budget. *)
Definition read_only_image : Image :=
  {| Layers := Ok [payload [mkEntry "ro" TypeDir 0; mkEntry "ro/f" TypeReg 4];
                   payload [mkEntry "b" TypeReg (4 * GiB)]] |}.

(** A second config that decodes. *)
Definition cfg_750 : RawConfig := {| Config := doc_agent_750 |}.

(** A host whose temporary directory is missing. *)
Definition no_tmp_host : OS :=
  {| TempDir := "/tmp";
     mounts := [("/", 1%Z)];
     files := list_to_map [("/", Dir); ("/opt", Dir); ("/opt/datadog-packages", Dir)];
     rand := λ n, pretty (N.of_nat n + 1000)%N;
     drawn := 0;
     pinned := λ _, false |}.

(** An image whose layer list cannot be read. *)
Definition broken_image : Image :=
  {| Layers := Err (ErrLeaf (Opaque "manifest unknown")) |}.

(** A layer of another media type whose stream cannot be opened. *)
Definition sealed_layer : Layer :=
  {| MediaType := Ok "application/vnd.oci.image.config.v1+json";
     Uncompressed := Err (ErrLeaf (Opaque "unexpected EOF")) |}.

(** A fresh state and a state that saw one truncated config. *)
Definition history_bad : list (delivery) :=
  [mkDelivery [("b", cfg_bad)] [("b", cfg_bad)]].

Definition history_good : list (delivery) :=
  [mkDelivery [("b", cfg_bad)] [("b", cfg_bad)];
   mkDelivery [("a", cfg_ok)] [("a", cfg_ok)];
   mkDelivery [("b", cfg_bad)] [("b", cfg_bad)]].

(** The defaults document with one entry, and what it decodes to. *)
Definition doc_defaults : string :=
  "{" +:+ dq +:+ "agent" +:+ dq +:+ ":" +:+ dq +:+ "7.51.0" +:+ dq +:+ "}".

Definition sample_defaults (data : string) : gmap string string * option string :=
  if decide (data = doc_defaults) then ({["agent" := "7.51.0"]}, None)
  else (∅, Some "unexpected end of JSON input").

End Samples.

(** * Properties of the catalog client *)

Module CatalogFacts.
Import OrgConfig.

Lemma matches_spec pkg version p :
  matches pkg version p = true ↔ Name p = pkg ∧ Version p = version.
Proof.
  unfold matches. rewrite andb_true_iff, !bool_decide_eq_true. tauto.
Qed.

Lemma findPackage_Some pkg version ps p :
  findPackage pkg version ps = Some p → first_match pkg version ps p.
Proof.
  induction ps as [|q ps IH]; simpl; [done|].
  destruct (matches pkg version q) eqn:Hq.
  - intros [= <-]. apply matches_spec in Hq as [? ?].
    exists [], ps. repeat split; auto.
  - intros Hf. destruct (IH Hf) as (before & after & -> & ? & ? & Hall).
    exists (q :: before), after. repeat split; auto.
    constructor; [|done]. intros Hm. apply matches_spec in Hm. congruence.
Qed.

Lemma findPackage_None pkg version ps :
  findPackage pkg version ps = None → no_match pkg version ps.
Proof.
  induction ps as [|q ps IH]; simpl; [constructor|].
  destruct (matches pkg version q) eqn:Hq; [done|].
  intros Hf. constructor; [|by apply IH].
  intros Hm. apply matches_spec in Hm. congruence.
Qed.

Lemma findPackage_rehost h pkg version ps :
  findPackage pkg version (set_host h <$> ps)
  = set_host h <$> findPackage pkg version ps.
Proof.
  induction ps as [|q ps IH]; simpl; [done|].
  change (matches pkg version (set_host h q)) with (matches pkg version q).
  destruct (matches pkg version q); [done|apply IH].
Qed.

Section Update.

Variable unmarshal : string → catalog * option string.
Variable rawCatalog : string.

Abbreviation decodeConfigs := (decodeConfigs unmarshal).
Abbreviation onCatalogUpdate := (onCatalogUpdate unmarshal rawCatalog).
Abbreviation accepted := (accepted unmarshal).
Abbreviation received := (received unmarshal).
Abbreviation decodes := (decodes unmarshal).

Lemma decodeConfigs_accepted it merged :
  accepted it = true →
  decodeConfigs it merged
  = inr {| Packages := Packages merged ++ concat (received <$> it) |}.
Proof.
  revert merged. induction it as [|[k cfg] it IH]; intros merged; simpl.
  - intros _. destruct merged; simpl. by rewrite app_nil_r.
  - unfold decodes, received at 1. simpl.
    destruct (unmarshal (Config cfg)) as [cat [err|]] eqn:Hu; simpl; [done|].
    intros Hacc. rewrite (IH _ Hacc). simpl. by rewrite <- app_assoc.
Qed.

Lemma decodeConfigs_rejected it merged :
  accepted it = false →
  ∃ before k cfg after err,
    it = before ++ (k, cfg) :: after
    ∧ accepted before = true
    ∧ snd (unmarshal (Config cfg)) = Some err
    ∧ decodeConfigs it merged = inl (k, err).
Proof.
  revert merged. induction it as [|[k cfg] it IH]; intros merged; simpl; [done|].
  unfold decodes at 1. simpl.
  destruct (unmarshal (Config cfg)) as [cat [err|]] eqn:Hu; simpl.
  - intros _. exists [], k, cfg, it, err. rewrite Hu. by repeat split.
  - intros Hacc.
    destruct (IH {| Packages := Packages merged ++ Packages cat |} Hacc)
      as (before & k' & cfg' & after & err & -> & Hb & He & Hd).
    exists ((k, cfg) :: before), k', cfg', after, err.
    repeat split; auto. simpl. unfold decodes at 1. simpl. by rewrite Hu.
Qed.

Lemma update_rejected it1 it2 c :
  accepted it1 = false →
  snd (onCatalogUpdate it1 it2 c) = Some c.
Proof.
  intros Hacc. unfold OrgConfig.onCatalogUpdate.
  destruct (decodeConfigs_rejected it1 (fst (unmarshal rawCatalog)) Hacc)
    as (? & k & ? & ? & err & _ & _ & _ & ->). done.
Qed.

Lemma update_accepted it1 it2 c :
  accepted it1 = true → consistent c →
  ∃ c', snd (onCatalogUpdate it1 it2 c) = Some c'
        ∧ latch_open c' = true ∧ consistent c'
        ∧ Packages (catalog_ c')
          = baseline unmarshal rawCatalog ++ concat (received <$> it1).
Proof.
  intros Hacc Hc. unfold OrgConfig.onCatalogUpdate.
  rewrite (decodeConfigs_accepted _ _ Hacc). simpl.
  unfold closeOnce, consistent, latch_open in *. simpl.
  destruct c as [[] [] cat]; simpl in *; try discriminate; eauto.
Qed.

Lemma update_consistent it1 it2 c c' :
  consistent c → snd (onCatalogUpdate it1 it2 c) = Some c' → consistent c'.
Proof.
  intros Hc Hs. destruct (accepted it1) eqn:Hacc.
  - destruct (update_accepted it1 it2 c Hacc Hc) as (c2 & Hs2 & _ & ? & _).
    congruence.
  - rewrite (update_rejected _ it2 c Hacc) in Hs. congruence.
Qed.

Lemma reachable_consistent c : reachable unmarshal rawCatalog c → consistent c.
Proof.
  induction 1 as [|c it1 it2 c' _ IH Hs]; [done|].
  eapply update_consistent; eauto.
Qed.

Lemma update_latch it1 it2 c :
  consistent c →
  ∃ c', snd (onCatalogUpdate it1 it2 c) = Some c' ∧ consistent c'
        ∧ latch_open c' = latch_open c || accepted it1.
Proof.
  intros Hc. destruct (accepted it1) eqn:Hacc.
  - destruct (update_accepted it1 it2 c Hacc Hc) as (c' & ? & Ho & ? & _).
    exists c'. rewrite Ho, orb_true_r. done.
  - exists c. rewrite orb_false_r. split; [|done].
    by apply update_rejected.
Qed.


Lemma replies_to_NoDup id (acks : list (string * ApplyStatus)) :
  NoDup acks.*1 →
  replies_to id acks = if bool_decide (id ∈ acks.*1) then 1 else 0.
Proof.
  unfold replies_to. induction acks as [|a acks IH].
  - intros _. case_bool_decide as Hin; [|done]. by apply elem_of_nil in Hin.
  - rewrite fmap_cons, NoDup_cons. intros [Hnotin Hnd]. rewrite filter_cons.
    specialize (IH Hnd).
    destruct (decide (a.1 = id)) as [<-|Hne]; simpl.
    + rewrite IH. rewrite (bool_decide_eq_false_2 (a.1 ∈ acks.*1)) by done.
      rewrite bool_decide_eq_true_2; [done|]. apply elem_of_cons. by left.
    + rewrite IH. apply (f_equal (λ b : bool, if b then 1 else 0)).
      apply bool_decide_ext. rewrite elem_of_cons. split; [auto|].
      intros [->|?]; [done|auto].
Qed.

Lemma range_order_keys (m : gmap string RawConfig) it :
  range_order m it → NoDup it.*1 ∧ ∀ id, id ∈ it.*1 ↔ is_Some (m !! id).
Proof.
  unfold range_order. intros Hp. split.
  - rewrite Hp. apply NoDup_fst_map_to_list.
  - intros id. rewrite Hp, list_elem_of_fmap. split.
    + intros [[k v] [-> Hin]]. apply elem_of_map_to_list in Hin. eauto.
    + intros [v Hv]. exists (id, v). split; [done|].
      by apply elem_of_map_to_list.
Qed.

Lemma range_order_lookup (m : gmap string RawConfig) it k cfg :
  range_order m it → (k, cfg) ∈ it → m !! k = Some cfg.
Proof.
  unfold range_order. intros Hp Hin. rewrite Hp in Hin.
  by apply elem_of_map_to_list in Hin.
Qed.


Lemma deliver_latch ds c :
  consistent c →
  ∃ c', deliver unmarshal rawCatalog ds c = Some c'
        ∧ consistent c'
        ∧ latch_open c'
          = latch_open c || existsb (λ d, accepted (first_range d)) ds
        ∧ openings unmarshal rawCatalog ds c
          = if latch_open c then 0
            else if existsb (λ d, accepted (first_range d)) ds then 1 else 0.
Proof.
  revert c. induction ds as [|d ds IH]; intros c Hc; simpl.
  - exists c. rewrite orb_false_r. by destruct (latch_open c).
  - destruct (update_latch (first_range d) (second_range d) c Hc)
      as (c1 & -> & Hc1 & Hl1).
    destruct (IH c1 Hc1) as (c' & -> & Hc' & Hl' & Hop).
    exists c'. rewrite Hop, Hl', Hl1.
    repeat split; [done|by rewrite orb_assoc|].
    destruct (latch_open c), (accepted (first_range d)),
      (existsb (λ d0, accepted (first_range d0)) ds); done.
Qed.

(** C1 (as amended): every config path gets at most one reply. When all
    configs decode, each delivered path gets exactly one reply, which is
    [Acknowledged]. When one fails to decode, the callback is called once
    in all: [Error] with the decoder's message, for the first config in
    visiting order that fails; no other path gets a reply. *)
Theorem replies_of_update (m : gmap string RawConfig) it1 it2 c :
  range_order m it1 → range_order m it2 →
  let acks := fst (onCatalogUpdate it1 it2 c) in
  (∀ id, (replies_to id acks ≤ 1)%nat)
  ∧ (accepted it1 = true →
     ∀ id, is_Some (m !! id) →
       replies_to id acks = 1
       ∧ (id, {| State := ApplyStateAcknowledged; Error := "" |}) ∈ acks)
  ∧ (accepted it1 = false →
     ∃ before id cfg after msg,
       it1 = before ++ (id, cfg) :: after
       ∧ accepted before = true
       ∧ m !! id = Some cfg
       ∧ snd (unmarshal (Config cfg)) = Some msg
       ∧ acks = [(id, {| State := ApplyStateError; Error := msg |})]
       ∧ ∀ id', id' ≠ id → replies_to id' acks = 0).
Proof.
  intros H1 H2 acks.
  destruct (range_order_keys m it2 H2) as [Hnd Hkeys].
  destruct (accepted it1) eqn:Hacc.
  - assert (Hacks : acks
      = (λ kv, (kv.1, {| State := ApplyStateAcknowledged; Error := "" |})) <$> it2).
    { unfold acks, OrgConfig.onCatalogUpdate.
      by rewrite (decodeConfigs_accepted _ _ Hacc). }
    assert (Hfst : acks.*1 = it2.*1).
    { rewrite Hacks, <- list_fmap_compose. done. }
    split; [|split; [|done]].
    + intros id. rewrite replies_to_NoDup by by rewrite Hfst.
      case_bool_decide; lia.
    + intros _ id Hid. apply Hkeys in Hid. split.
      * rewrite replies_to_NoDup by by rewrite Hfst.
        rewrite Hfst. by rewrite bool_decide_eq_true_2.
      * apply list_elem_of_fmap in Hid as [[k v] [-> Hin]].
        rewrite Hacks. apply list_elem_of_fmap. by exists (k, v).
  - destruct (decodeConfigs_rejected it1 (fst (unmarshal rawCatalog)) Hacc)
      as (before & id & cfg & after & msg & Hit & Hb & Hmsg & Hdec).
    assert (Hacks : acks = [(id, {| State := ApplyStateError; Error := msg |})]).
    { unfold acks, OrgConfig.onCatalogUpdate. by rewrite Hdec. }
    split; [|split; [done|]].
    + intros id'. rewrite Hacks. unfold replies_to. rewrite filter_cons.
      simpl. case_decide; simpl; lia.
    + intros _. exists before, id, cfg, after, msg. repeat split; auto.
      * apply (range_order_lookup m it1); [done|].
        rewrite Hit. apply elem_of_app. right. apply elem_of_cons. by left.
      * intros id' Hne. rewrite Hacks. unfold replies_to. rewrite filter_cons.
        simpl. case_decide; [congruence|done].
Qed.

(** C7: when every received config decodes, the catalog held afterwards
    is the baseline's packages followed by the packages of the received
    configs in visiting order, whatever the catalog was before. *)
Theorem catalog_replaced it1 it2 c :
  reachable unmarshal rawCatalog c →
  accepted it1 = true →
  ∃ c', snd (onCatalogUpdate it1 it2 c) = Some c'
        ∧ Packages (catalog_ c')
          = baseline unmarshal rawCatalog ++ concat (received <$> it1).
Proof.
  intros Hr Hacc.
  destruct (update_accepted it1 it2 c Hacc (reachable_consistent c Hr))
    as (c' & ? & _ & _ & ?).
  by exists c'.
Qed.

(** C6: from a fresh configuration, no sequence of deliveries panics; the
    latch is open afterwards exactly when one of the deliveries was
    accepted, and it went from closed to open once in that case and
    never otherwise. In the state reached, a delivery that fails to
    decode changes nothing, an open latch stays open under any further
    delivery, and a waiter on an open latch returns at once. *)
Theorem latch_opens_once (ds : list delivery) :
  ∃ c, deliver unmarshal rawCatalog ds newOrgConfig = Some c
       ∧ latch_open c = existsb (λ d, accepted (first_range d)) ds
       ∧ openings unmarshal rawCatalog ds newOrgConfig
         = (if existsb (λ d, accepted (first_range d)) ds then 1 else 0)
       ∧ (∀ it1 it2, accepted it1 = false →
            snd (onCatalogUpdate it1 it2 c) = Some c)
       ∧ (∀ it1 it2, latch_open c = true →
            ∃ c', snd (onCatalogUpdate it1 it2 c) = Some c'
                  ∧ latch_open c' = true)
       ∧ (∀ pick ctx, latch_open c = true →
            waitForCatalog pick ctx c ≠ Blocked
            ∧ waitForCatalog pick None c = Ready None).
Proof.
  destruct (deliver_latch ds newOrgConfig eq_refl) as (c & Hd & Hc & Hl & Hop).
  exists c. simpl in Hl, Hop. repeat split; auto.
  - intros it1 it2. apply update_rejected.
  - intros it1 it2 Hopen.
    destruct (update_latch it1 it2 c Hc) as (c' & ? & _ & Hl').
    exists c'. by rewrite Hl', Hopen.
  - unfold waitForCatalog, latch_open in *.
    by destruct ctx, pick, (catalogReceived c).
  - unfold waitForCatalog, latch_open in *.
    by destruct (catalogReceived c).
Qed.

End Update.

(** C2 (as amended): with the context live and the latch closed the call
    blocks; with the latch open and the context live it returns the first
    entry whose name and version equal the arguments, or a not-found error
    when there is none; with the context cancelled and the latch closed it
    fails with the cancellation error. With the latch open and the context
    cancelled, [select] may take either case. *)
Theorem GetPackage_outcome pick ctx pkg version c :
  GetPackage_may ctx c pkg version (GetPackage pick ctx pkg version c)
  ∧ match ctx, latch_open c with
    | None, false => GetPackage pick ctx pkg version c = Blocked
    | Some e, false =>
        GetPackage pick ctx pkg version c
        = Ready (zero_Package, Some (ErrCanceledWaiting e))
    | None, true =>
        GetPackage pick ctx pkg version c = GetPackage false None pkg version c
        ∧ GetPackage pick ctx pkg version c ≠ Blocked
    | Some e, true =>
        GetPackage true ctx pkg version c
        = Ready (zero_Package, Some (ErrCanceledWaiting e))
        ∧ GetPackage false ctx pkg version c = GetPackage false None pkg version c
    end.
Proof.
  unfold GetPackage, waitForCatalog, latch_open.
  destruct ctx as [e|], (catalogReceived c) eqn:Hch; simpl.
  - split; [by apply may_cancel|done].
  - split; [|split; [done|]].
    + destruct pick; [by apply may_cancel|].
      destruct (findPackage pkg version (Packages (catalog_ c))) eqn:Hf.
      * apply may_find; [unfold latch_open; by rewrite Hch|].
        by apply findPackage_Some.
      * apply may_miss; [unfold latch_open; by rewrite Hch|].
        by apply findPackage_None.
    + done.
  - split; [|done]. apply may_block; [done|]. unfold latch_open. by rewrite Hch.
  - split; [|split; [done|]].
    + destruct (findPackage pkg version (Packages (catalog_ c))) eqn:Hf.
      * apply may_find; [unfold latch_open; by rewrite Hch|].
        by apply findPackage_Some.
      * apply may_miss; [unfold latch_open; by rewrite Hch|].
        by apply findPackage_None.
    + by destruct (findPackage pkg version (Packages (catalog_ c))).
Qed.

(** C9: a successful lookup returns an entry whose name and version equal
    the arguments, and rewriting the platform and architecture of the
    catalog entries in any way changes neither which entry is returned nor
    whether the lookup succeeds. *)
Theorem GetPackage_ignores_host pick ctx pkg version c p :
  GetPackage pick ctx pkg version c = Ready (p, None) →
  Name p = pkg ∧ Version p = version
  ∧ first_match pkg version (Packages (catalog_ c)) p
  ∧ (∀ h, GetPackage pick ctx pkg version (rehost h c) = Ready (set_host h p, None))
  ∧ (∀ pick' ctx' pkg' version' h,
       (∃ q, GetPackage pick' ctx' pkg' version' (rehost h c) = Ready (q, None))
       ↔ (∃ q, GetPackage pick' ctx' pkg' version' c = Ready (q, None))).
Proof.
  intros Hget.
  assert (Hfind : findPackage pkg version (Packages (catalog_ c)) = Some p).
  { unfold GetPackage in Hget.
    destruct (waitForCatalog pick ctx c) as [|[e|]]; try discriminate.
    destruct (findPackage pkg version (Packages (catalog_ c)));
      by inversion Hget. }
  destruct (findPackage_Some _ _ _ _ Hfind) as (b & a & Hps & Hn & Hv & Hall).
  split; [done|]. split; [done|]. split; [by exists b, a|].
  split.
  - intros h. unfold GetPackage in *.
    change (waitForCatalog pick ctx (rehost h c)) with (waitForCatalog pick ctx c).
    destruct (waitForCatalog pick ctx c) as [|[e|]]; try discriminate.
    simpl. by rewrite findPackage_rehost, Hfind.
  - intros pick' ctx' pkg' version' h'. unfold GetPackage.
    change (waitForCatalog pick' ctx' (rehost h' c))
      with (waitForCatalog pick' ctx' c).
    destruct (waitForCatalog pick' ctx' c) as [|[e|]].
    + split; intros [q Hq]; discriminate.
    + split; intros [q Hq]; discriminate.
    + simpl. rewrite findPackage_rehost.
      destruct (findPackage pkg' version' (Packages (catalog_ c))); simpl.
      * split; intros _; eauto.
      * split; intros [q Hq]; discriminate.
Qed.


(** ** Concrete runs *)

Import Samples.

Lemma two_configs_order :
  range_order two_configs [("a", cfg_ok); ("b", cfg_bad)].
Proof. unfold range_order. vm_compute. reflexivity. Qed.

(** C1 fails as stated: of two delivered configs, ["b"] does not decode
    and is answered with [Error]; ["a"] is delivered and gets no reply. *)
Lemma config_left_unanswered :
  let it := [("a", cfg_ok); ("b", cfg_bad)] in
  let acks := fst (onCatalogUpdate sample_unmarshal doc_agent_750 it it newOrgConfig) in
  range_order two_configs it
  ∧ two_configs !! "a" = Some cfg_ok
  ∧ acks = [("b", {| State := ApplyStateError;
                     Error := "unexpected end of JSON input" |})]
  ∧ replies_to "a" acks = 0.
Proof.
  split; [apply two_configs_order|]. split; [by vm_compute|].
  split; by vm_compute.
Qed.

Lemma replies_of_update_witness :
  let it := [("a", cfg_ok); ("b", cfg_bad)] in
  let acks := fst (onCatalogUpdate sample_unmarshal doc_agent_750 it it newOrgConfig) in
  (replies_to "a" acks ≤ 1)%nat ∧ (replies_to "b" acks ≤ 1)%nat.
Proof.
  intros it acks.
  pose proof (proj1 (replies_of_update sample_unmarshal doc_agent_750 two_configs
                       it it newOrgConfig two_configs_order two_configs_order))
    as Hmost.
  split; apply Hmost.
Defined.

Lemma catalog_replaced_witness :
  ∃ c', snd (onCatalogUpdate sample_unmarshal doc_agent_750
               [("a", cfg_ok)] [("a", cfg_ok)] newOrgConfig) = Some c'
        ∧ Packages (catalog_ c') = [agent_750; agent_751].
Proof.
  apply (catalog_replaced sample_unmarshal doc_agent_750
           [("a", cfg_ok)] [("a", cfg_ok)] newOrgConfig).
  - apply reach_new.
  - vm_compute. reflexivity.
Defined.

(** C2 fails as stated: the latch is open and the catalog holds the entry,
    yet a call with a cancelled context may return the cancellation error,
    since [select] chooses among the ready cases. *)
Lemma open_latch_may_cancel :
  snd (onCatalogUpdate sample_unmarshal doc_agent_750
         [("a", cfg_ok)] [("a", cfg_ok)] newOrgConfig) = Some merged_state
  ∧ latch_open merged_state = true
  ∧ findPackage "agent" "7.51.0" (Packages (catalog_ merged_state)) = Some agent_751
  ∧ GetPackage true (Some Canceled) "agent" "7.51.0" merged_state
    = Ready (zero_Package, Some (ErrCanceledWaiting Canceled)).
Proof. repeat split; by vm_compute. Qed.

Lemma latch_opens_once_witness :
  ∃ c, deliver sample_unmarshal doc_agent_750
         [mkDelivery [("b", cfg_bad)] [("b", cfg_bad)];
          mkDelivery [("a", cfg_ok)] [("a", cfg_ok)];
          mkDelivery [("a", cfg_ok)] [("a", cfg_ok)]] newOrgConfig = Some c
       ∧ latch_open c = true.
Proof.
  destruct (latch_opens_once sample_unmarshal doc_agent_750
              [mkDelivery [("b", cfg_bad)] [("b", cfg_bad)];
               mkDelivery [("a", cfg_ok)] [("a", cfg_ok)];
               mkDelivery [("a", cfg_ok)] [("a", cfg_ok)]])
    as (c & Hc & Hl & _).
  exists c. split; [exact Hc|exact Hl].
Defined.

Lemma GetPackage_ignores_host_witness :
  GetPackage false None "agent" "7.51.0" (rehost foreign merged_state)
  = Ready (set_host foreign agent_751, None).
Proof.
  apply (GetPackage_ignores_host false None "agent" "7.51.0" merged_state agent_751).
  vm_compute. reflexivity.
Defined.

End CatalogFacts.

(** * Properties of the installer *)

Module InstallerFacts.
Import Installer.

(** ** Paths *)

Lemma append_cons x a b : String x a +:+ b = String x (a +:+ b).
Proof. reflexivity. Qed.

Lemma append_nil_r s : s +:+ "" = s.
Proof. induction s as [|a s IH]; [done|by rewrite append_cons, IH]. Qed.

Lemma append_assoc a b c : (a +:+ b) +:+ c = a +:+ (b +:+ c).
Proof. induction a as [|x a IH]; [done|by rewrite !append_cons, IH]. Qed.

Lemma is_prefix_app a b : is_prefix a (a +:+ b) = true.
Proof.
  induction a as [|x a IH]; [done|].
  rewrite append_cons. simpl. by rewrite Ascii.eqb_refl, IH.
Qed.

Lemma is_prefix_trans a b c :
  is_prefix a b = true → is_prefix b c = true → is_prefix a c = true.
Proof.
  revert b c. induction a as [|x a IH]; intros [|y b] [|z c]; simpl; try done.
  rewrite !andb_true_iff, !Ascii.eqb_eq. intros [-> Hab] [-> Hbc].
  split; [done|]. by apply (IH b c).
Qed.

Lemma joinPath_app dir name : joinPath dir name = joinPath dir "" +:+ name.
Proof.
  unfold joinPath. destruct (ends_with_sep dir).
  - by rewrite append_nil_r.
  - by rewrite !append_assoc.
Qed.

Lemma joinPath_prefix dir name : is_prefix dir (joinPath dir name) = true.
Proof. unfold joinPath. destruct (ends_with_sep dir); apply is_prefix_app. Qed.

Lemma joinPath_nonempty dir name : joinPath dir name ≠ "".
Proof.
  unfold joinPath. destruct (ends_with_sep dir) eqn:He.
  - destruct dir; [done|]. rewrite append_cons. discriminate.
  - destruct dir; [|rewrite append_cons]; discriminate.
Qed.

Lemma append_nonempty a b : a ≠ "" → a +:+ b ≠ "".
Proof. destruct a; [done|]. rewrite append_cons. discriminate. Qed.

Lemma within_below dir rest : within dir (joinPath dir "" +:+ rest) = true.
Proof. unfold within. by rewrite is_prefix_app, orb_true_r. Qed.

Lemma within_refl dir : within dir dir = true.
Proof. unfold within. by rewrite bool_decide_eq_true_2. Qed.

Lemma within_trans a b c :
  within a b = true → within b c = true → within a c = true.
Proof.
  unfold within. rewrite !orb_true_iff, !bool_decide_eq_true.
  intros [->|Hab] [->|Hbc]; auto.
  right. eapply is_prefix_trans; [exact Hab|].
  eapply is_prefix_trans; [|exact Hbc]. apply joinPath_prefix.
Qed.


(** ** The operating system *)

Lemma mkdirTempLoop_Ok fuel dir pfx o name o' :
  mkdirTempLoop fuel dir pfx o = (Ok name, o') →
  (∃ k, name = joinPath dir pfx +:+ rand o k)
  ∧ files o !! name = None
  ∧ files o !! dir = Some Dir
  ∧ files o' = <[name := Dir]> (files o)
  ∧ mounts o' = mounts o
  ∧ TempDir o' = TempDir o.
Proof.
  revert o. induction fuel as [|fuel IH]; intros o; simpl; [done|].
  destruct (files o !! (joinPath dir pfx +:+ rand o (drawn o))) eqn:Hname.
  - intros Hloop. destruct (IH _ Hloop) as ([k ->] & ? & ? & ? & ? & ?).
    repeat split; eauto.
  - destruct (files o !! dir) as [[| |]|] eqn:Hdir; try discriminate.
    intros [= <- <-]. repeat split; eauto.
Qed.

Lemma MkdirTemp_Ok o name o' :
  MkdirTemp "" "" o = (Ok name, o') →
  (∃ k, name = joinPath (TempDir o) (rand o k))
  ∧ name ≠ ""
  ∧ within (TempDir o) name = true
  ∧ files o !! name = None
  ∧ files o !! TempDir o = Some Dir
  ∧ files o' = <[name := Dir]> (files o)
  ∧ mounts o' = mounts o
  ∧ TempDir o' = TempDir o.
Proof.
  unfold MkdirTemp. rewrite decide_True by done. intros Hloop.
  destruct (mkdirTempLoop_Ok _ _ _ _ _ _ Hloop) as ([k ->] & ? & ? & ? & ? & ?).
  repeat split; auto.
  - exists k. by rewrite (joinPath_app _ (rand o k)).
  - apply append_nonempty, joinPath_nonempty.
  - apply within_below.
Qed.

Lemma stuck_spec o p :
  stuck o p = true
  ↔ ∃ q, within p q = true ∧ pinned o q = true ∧ is_Some (files o !! q).
Proof.
  unfold stuck. rewrite existsb_exists. split.
  - intros ([q x] & Hin & Hb). apply andb_true_iff in Hb as [Hw Hp].
    exists q. repeat split; [exact Hw|exact Hp|].
    apply list_elem_of_In, elem_of_map_to_list in Hin. by exists x.
  - intros (q & Hw & Hp & [x Hx]). exists (q, x). split.
    + by apply list_elem_of_In, elem_of_map_to_list.
    + simpl. by rewrite Hw, Hp.
Qed.

Lemma RemoveAll_pinned path o : pinned (snd (RemoveAll path o)) = pinned o.
Proof. unfold RemoveAll. by case_decide. Qed.

(** What [RemoveAll] leaves at or below the path is stuck. *)
Lemma RemoveAll_left path o p :
  path ≠ "" → within path p = true →
  is_Some (files (snd (RemoveAll path o)) !! p) →
  ∃ q, within p q = true ∧ pinned o q = true
       ∧ is_Some (files (snd (RemoveAll path o)) !! q).
Proof.
  intros Hne Hin [x Hx]. unfold RemoveAll in *.
  rewrite decide_False in * by done. simpl in *.
  apply map_lookup_filter_Some in Hx as [Hx Hkeep]. simpl in Hkeep.
  destruct Hkeep as [Hout|Hstuck]; [by rewrite Hin in Hout|].
  apply Is_true_true, stuck_spec in Hstuck as (q & Hw & Hp & [y Hy]).
  exists q. repeat split; [exact Hw|exact Hp|].
  exists y. apply map_lookup_filter_Some. split; [exact Hy|]. simpl. right.
  apply Is_true_true, stuck_spec. exists q.
  repeat split; [apply within_refl|exact Hp|by exists y].
Qed.

(** With nothing pinned at or below the path, nothing is left there. *)
Lemma RemoveAll_gone path o p :
  path ≠ "" → (∀ q, within path q = true → pinned o q = false) →
  within path p = true → files (snd (RemoveAll path o)) !! p = None.
Proof.
  intros Hne Hfree Hin.
  destruct (files (snd (RemoveAll path o)) !! p) as [x|] eqn:Hx; [|done].
  destruct (RemoveAll_left path o p Hne Hin) as (q & Hw & Hp & _); [by exists x|].
  rewrite (Hfree q) in Hp; [done|]. by apply (within_trans _ p).
Qed.

Lemma RemoveAll_outside path o p :
  within path p = false → files (snd (RemoveAll path o)) !! p = files o !! p.
Proof.
  intros Hout. unfold RemoveAll. case_decide; [done|]. simpl.
  destruct (files o !! p) as [x|] eqn:Hp.
  - apply map_lookup_filter_Some. split; [done|]. simpl. left.
    rewrite Hout. exact id.
  - apply map_lookup_filter_None. by left.
Qed.

(** Two paths under the same mount points are on the same device. *)
Lemma covering_same (ms : list (string * Z)) p q :
  (∀ mp, mp ∈ ms.*1 → within mp p = within mp q) →
  filter (λ m, Is_true (within (fst m) p)) ms
  = filter (λ m, Is_true (within (fst m) q)) ms.
Proof.
  induction ms as [|m ms IH]; intros Hsame; [done|].
  rewrite !filter_cons.
  rewrite (Hsame m.1) by (rewrite fmap_cons; apply elem_of_cons; by left).
  rewrite IH; [done|].
  intros mp Hin. apply Hsame. rewrite fmap_cons. apply elem_of_cons. by right.
Qed.

Lemma device_of_same o o' p q :
  mounts o' = mounts o →
  (∀ mp, mp ∈ (mounts o).*1 → within mp p = within mp q) →
  device_of o' p = device_of o q.
Proof.
  intros Hm Hsame. unfold device_of, covering. rewrite Hm.
  by rewrite (covering_same _ p q Hsame).
Qed.


(** ** Extraction of the package layers *)

Section Install.

Context {Repositories Repository : Type}.
Context `{!RepositoryStore Repositories Repository}.
Variable extractTarArchive : Reader → string → Z → OS → option error * OS.

Abbreviation extractLayers := (extractLayers extractTarArchive).
Abbreviation extractPackageLayers := (extractPackageLayers extractTarArchive).
Abbreviation installStable := (installStable extractTarArchive).
Abbreviation installExperiment := (installExperiment extractTarArchive).

(** One turn of the loop on a payload layer. *)
Lemma extractLayers_payload layer rest r dir w :
  MediaType layer = Ok datadogPackageLayerMediaType →
  Uncompressed layer = Ok r →
  extractLayers (layer :: rest) dir w
  = match extractTarArchive r dir datadogPackageMaxSize (os w) with
    | (None, o) =>
        extractLayers rest dir
          {| os := o;
             trace := trace w ++ [EvExtractTar r dir datadogPackageMaxSize] |}
    | (Some e, o) =>
        (Err (Errorf "could not extract layer" e),
         {| os := o;
            trace := trace w ++ [EvExtractTar r dir datadogPackageMaxSize] |})
    end.
Proof.
  intros Hmt Hun. simpl. rewrite Hmt, decide_True by done. rewrite Hun.
  unfold mbind, M_bind, wrapf, call.
  by destruct (extractTarArchive r dir datadogPackageMaxSize (os w)) as [[e|] o].
Qed.

(** One turn of the loop on a layer of another media type. *)
Lemma extractLayers_other layer rest mt dir w :
  MediaType layer = Ok mt → mt ≠ datadogPackageLayerMediaType →
  extractLayers (layer :: rest) dir w = extractLayers rest dir w.
Proof. intros Hmt Hne. simpl. by rewrite Hmt, decide_False. Qed.

Lemma extract_events_payload layer rest r dir :
  MediaType layer = Ok datadogPackageLayerMediaType →
  Uncompressed layer = Ok r →
  extract_events dir (layer :: rest)
  = EvExtractTar r dir datadogPackageMaxSize :: extract_events dir rest.
Proof.
  intros Hmt Hun. unfold extract_events, payload_streams, is_payload. simpl.
  rewrite Hmt, Hun. by rewrite bool_decide_eq_true_2.
Qed.

Lemma extract_events_skip layer rest dir :
  is_payload layer = false ∨ (∃ e, Uncompressed layer = Err e) →
  extract_events dir (layer :: rest) = extract_events dir rest.
Proof.
  unfold extract_events, payload_streams. simpl.
  intros [->|[e ->]]; [done|]. by destruct (is_payload layer).
Qed.

Lemma extractLayers_trace layers dir w :
  ∃ k, trace (snd (extractLayers layers dir w))
       = trace w ++ take k (extract_events dir layers)
     ∧ (fst (extractLayers layers dir w) = Ok tt →
        trace (snd (extractLayers layers dir w))
        = trace w ++ extract_events dir layers).
Proof.
  revert w. induction layers as [|layer rest IH]; intros w.
  - exists 0. change (extract_events dir []) with (@nil event). simpl.
    by rewrite app_nil_r.
  - destruct (MediaType layer) as [mt|e] eqn:Hmt.
    + destruct (decide (mt = datadogPackageLayerMediaType)) as [->|Hne].
      * destruct (Uncompressed layer) as [r|e] eqn:Hun.
        -- rewrite (extractLayers_payload _ _ r) by done.
           rewrite (extract_events_payload _ _ r) by done.
           destruct (extractTarArchive r dir datadogPackageMaxSize (os w))
             as [[e|] o].
           ++ exists 1. simpl. by rewrite take_0.
           ++ destruct (IH {| os := o;
                   trace := trace w ++ [EvExtractTar r dir datadogPackageMaxSize] |})
                as (k & Hk & Hall).
              exists (S k). rewrite firstn_cons. split.
              ** rewrite Hk. cbn [trace]. by rewrite <- app_assoc.
              ** intros Hok. rewrite (Hall Hok). cbn [trace].
                 by rewrite <- app_assoc.
        -- rewrite extract_events_skip by eauto.
           exists 0. simpl. rewrite Hmt, decide_True by done. rewrite Hun.
           simpl. by rewrite take_0, app_nil_r.
      * rewrite (extractLayers_other _ _ mt) by done.
        rewrite extract_events_skip; [apply IH|].
        left. unfold is_payload. rewrite Hmt. by apply bool_decide_eq_false_2.
    + exists 0. simpl. rewrite Hmt. simpl. by rewrite take_0, app_nil_r.
Qed.

Lemma extract_events_not_transition dir layers k :
  Forall (λ ev, is_transition ev = false) (take k (extract_events dir layers)).
Proof.
  apply Forall_take. unfold extract_events. apply Forall_fmap.
  by apply Forall_true.
Qed.

Lemma extractPackageLayers_trace image dir w :
  ∃ k layers,
    trace (snd (extractPackageLayers image dir w))
    = trace w ++ take k (extract_events dir layers)
    ∧ (Layers image = Ok layers ∨ k = 0).
Proof.
  unfold Installer.extractPackageLayers.
  destruct (Layers image) as [layers|e].
  - destruct (extractLayers_trace layers dir w) as (k & Hk & _). eauto.
  - exists 0, []. simpl. rewrite app_nil_r. auto.
Qed.

Lemma extractLayers_outside layers dir w :
  confined extractTarArchive →
  same_outside dir (os w) (os (snd (extractLayers layers dir w))).
Proof.
  intros Hconf. revert w. induction layers as [|layer rest IH]; intros w p Hp.
  - done.
  - destruct (MediaType layer) as [mt|e] eqn:Hmt.
    + destruct (decide (mt = datadogPackageLayerMediaType)) as [->|Hne].
      * destruct (Uncompressed layer) as [r|e] eqn:Hun.
        -- rewrite (extractLayers_payload _ _ r) by done.
           pose proof (Hconf r dir datadogPackageMaxSize (os w) p Hp) as Hw.
           destruct (extractTarArchive r dir datadogPackageMaxSize (os w))
             as [[e|] o]; simpl in *; [done|].
           by rewrite (IH _ p Hp).
        -- simpl. rewrite Hmt, decide_True by done. by rewrite Hun.
      * rewrite (extractLayers_other _ _ mt) by done. by apply IH.
    + simpl. by rewrite Hmt.
Qed.

Lemma extractPackageLayers_outside image dir w :
  confined extractTarArchive →
  same_outside dir (os w) (os (snd (extractPackageLayers image dir w))).
Proof.
  intros Hconf. unfold Installer.extractPackageLayers.
  destruct (Layers image) as [layers|e]; [by apply extractLayers_outside|done].
Qed.


(** ** The two install operations *)

Lemma installStable_staged i pkg version image w tmpDir o1 :
  MkdirTemp "" "" (os w) = (Ok tmpDir, o1) →
  installStable i pkg version image w
  = defer (os_RemoveAll tmpDir)
      (_ ← wrapf "could not extract package layers"
             (extractPackageLayers image tmpDir);
       call (EvCreate pkg version tmpDir)
            (Create (repositories i) pkg version tmpDir))
      {| os := o1; trace := trace w ++ [EvMkdirTemp tmpDir] |}.
Proof.
  intros Hmk. unfold Installer.installStable.
  unfold mbind at 1. unfold M_bind at 1. unfold wrapf at 1, os_MkdirTemp.
  by rewrite Hmk.
Qed.

Lemma installExperiment_staged i pkg version image w tmpDir o1 :
  MkdirTemp "" "" (os w) = (Ok tmpDir, o1) →
  installExperiment i pkg version image w
  = defer (os_RemoveAll tmpDir)
      (_ ← wrapf "could not extract package layers"
             (extractPackageLayers image tmpDir);
       repository ← wrapf "could not get repository"
                      (repositories_Get (repositories i) pkg);
       call (EvSetExperiment version tmpDir)
            (SetExperiment repository version tmpDir))
      {| os := o1; trace := trace w ++ [EvMkdirTemp tmpDir] |}.
Proof.
  intros Hmk. unfold Installer.installExperiment.
  unfold mbind at 1. unfold M_bind at 1. unfold wrapf at 1, os_MkdirTemp.
  by rewrite Hmk.
Qed.

(** After the deferred removal, what is left of the staging directory
    is what the system refused to unlink. *)
Lemma defer_RemoveAll_swept {A} tmpDir (body : M A) w :
  tmpDir ≠ "" →
  swept tmpDir (os (snd (defer (os_RemoveAll tmpDir) body w))).
Proof.
  intros Hne p Hin Hp. unfold defer in *. destruct (body w) as [r w'].
  simpl in *.
  destruct (RemoveAll_left tmpDir (os w') p Hne Hin Hp) as (q & ? & ? & ?).
  exists q. by rewrite RemoveAll_pinned.
Qed.

Lemma swept_clean dir o :
  swept dir o →
  (∀ q, within dir q = true → pinned o q = false) →
  ∀ p, within dir p = true → files o !! p = None.
Proof.
  intros Hs Hfree p Hin.
  destruct (files o !! p) as [x|] eqn:Hx; [|done].
  destruct (Hs p Hin) as (q & Hw & Hp & _); [by exists x|].
  rewrite (Hfree q) in Hp; [done|]. by apply (within_trans _ p).
Qed.

(** C5 (as amended): once the staging directory exists, both install
    operations call [os.RemoveAll] on it on every return and drop its
    error. Whatever is then left at or below the staging directory is an
    entry the system refused to unlink, or a directory that still holds
    one; with no such entry nothing is left. When extraction fails, or
    when [installExperiment] cannot get the repository, the operation
    fails with that error, neither [Create] nor [SetExperiment] is
    invoked, and (for an extractor that writes only below its
    destination) every path outside the staging directory holds what it
    held before the operation. *)
Theorem staging_removed_on_failure i pkg version image w tmpDir o1 :
  MkdirTemp "" "" (os w) = (Ok tmpDir, o1) →
  let w1 := {| os := o1; trace := trace w ++ [EvMkdirTemp tmpDir] |} in
  let stable := installStable i pkg version image w in
  let experiment := installExperiment i pkg version image w in
  let untouched (w' : World) :=
    no_transition_since w w'
    ∧ (confined extractTarArchive → same_outside tmpDir (os w) (os w')) in
  let clean (o : OS) :=
    swept tmpDir o
    ∧ ((∀ q, within tmpDir q = true → pinned o q = false) →
       ∀ p, within tmpDir p = true → files o !! p = None) in
  clean (os (snd stable)) ∧ clean (os (snd experiment))
  ∧ (∀ e w2,
       extractPackageLayers image tmpDir w1 = (Err e, w2) →
       fst stable = Err (Errorf "could not extract package layers" e)
       ∧ fst experiment = Err (Errorf "could not extract package layers" e)
       ∧ untouched (snd stable) ∧ untouched (snd experiment))
  ∧ (∀ e w2,
       extractPackageLayers image tmpDir w1 = (Ok tt, w2) →
       Get (repositories i) pkg (os w2) = Err e →
       fst experiment = Err (Errorf "could not get repository" e)
       ∧ untouched (snd experiment)).
Proof.
  intros Hmk w1 stable experiment untouched clean.
  destruct (MkdirTemp_Ok _ _ _ Hmk)
    as (_ & Hne & _ & Hfresh & _ & Hfiles & _ & _).
  assert (Hstart : same_outside tmpDir (os w) o1).
  { intros p Hp. rewrite Hfiles. apply lookup_insert_ne. intros <-.
    by rewrite within_refl in Hp. }
  assert (Hafter : ∀ w2 evs,
    trace w2 = trace w1 ++ evs →
    Forall (λ ev, is_transition ev = false) evs →
    (confined extractTarArchive → same_outside tmpDir o1 (os w2)) →
    untouched (os_RemoveAll tmpDir w2)).
  { intros w2 evs Htr Hevs Hout. split.
    - exists ([EvMkdirTemp tmpDir] ++ evs ++ [EvRemoveAll tmpDir]).
      split.
      + simpl. rewrite Htr. unfold w1. simpl. by rewrite <- !app_assoc.
      + apply Forall_app. split; [by repeat constructor|].
        apply Forall_app. split; [done|by repeat constructor].
    - intros Hconf p Hp. simpl. rewrite RemoveAll_outside by done.
      rewrite (Hout Hconf p Hp). by apply Hstart. }
  unfold stable, experiment.
  rewrite (installStable_staged _ _ _ _ _ _ _ Hmk).
  rewrite (installExperiment_staged _ _ _ _ _ _ _ Hmk).
  fold w1. split; [|split; [|split]].
  - split; [by apply defer_RemoveAll_swept|].
    apply swept_clean. by apply defer_RemoveAll_swept.
  - split; [by apply defer_RemoveAll_swept|].
    apply swept_clean. by apply defer_RemoveAll_swept.
  - intros e w2 Hex.
    destruct (extractPackageLayers_trace image tmpDir w1)
      as (k & layers & Htr & _).
    rewrite Hex in Htr. simpl in Htr.
    pose proof (extractPackageLayers_outside image tmpDir w1)
      as Hout.
    rewrite Hex in Hout. simpl in Hout.
    unfold defer, mbind, M_bind, wrapf. rewrite Hex. simpl.
    repeat split; try done;
      try (eapply Hafter; eauto using extract_events_not_transition).
  - intros e w2 Hex Hget.
    destruct (extractPackageLayers_trace image tmpDir w1)
      as (k & layers & Htr & _).
    rewrite Hex in Htr. simpl in Htr.
    pose proof (extractPackageLayers_outside image tmpDir w1)
      as Hout.
    rewrite Hex in Hout. simpl in Hout.
    unfold defer, mbind, M_bind, wrapf, repositories_Get. rewrite Hex.
    simpl. rewrite Hget. simpl. split; [done|].
    apply (Hafter {| os := os w2; trace := trace w2 ++ [EvGet pkg] |}
             (take k (extract_events tmpDir layers) ++ [EvGet pkg])).
    + simpl. by rewrite Htr, <- app_assoc.
    + apply Forall_app. split; [apply extract_events_not_transition|].
      by repeat constructor.
    + done.
Qed.

(** C3 (as amended): the staging directory is made by [os.MkdirTemp]
    with an empty directory argument: it is a fresh child of the default
    temporary directory, on the file system of that directory, and it is
    the directory both operations extract into, hand to the repository
    and remove on return. It is on the file system of the repository
    root exactly when the temporary directory is. *)
Theorem staging_in_temp_dir i pkg version image w tmpDir o1 :
  MkdirTemp "" "" (os w) = (Ok tmpDir, o1) →
  (∀ mp, mp ∈ (mounts (os w)).*1 →
     within mp tmpDir = true → within mp (TempDir (os w)) = true) →
  let w1 := {| os := o1; trace := trace w ++ [EvMkdirTemp tmpDir] |} in
  let root := rootPath (repositories i) in
  (∃ k, tmpDir = joinPath (TempDir (os w)) (rand (os w) k))
  ∧ files (os w) !! tmpDir = None
  ∧ files o1 !! tmpDir = Some Dir
  ∧ device_of o1 tmpDir = device_of (os w) (TempDir (os w))
  ∧ (device_of o1 tmpDir = device_of o1 root
     ↔ device_of (os w) (TempDir (os w)) = device_of (os w) root)
  ∧ installStable i pkg version image w
    = defer (os_RemoveAll tmpDir)
        (_ ← wrapf "could not extract package layers"
               (extractPackageLayers image tmpDir);
         call (EvCreate pkg version tmpDir)
              (Create (repositories i) pkg version tmpDir)) w1
  ∧ installExperiment i pkg version image w
    = defer (os_RemoveAll tmpDir)
        (_ ← wrapf "could not extract package layers"
               (extractPackageLayers image tmpDir);
         repository ← wrapf "could not get repository"
                        (repositories_Get (repositories i) pkg);
         call (EvSetExperiment version tmpDir)
              (SetExperiment repository version tmpDir)) w1.
Proof.
  intros Hmk Hmnt w1 root.
  destruct (MkdirTemp_Ok _ _ _ Hmk)
    as (Hk & _ & Hin & Hfresh & _ & Hfiles & Hmounts & _).
  assert (Hdev : device_of o1 tmpDir = device_of (os w) (TempDir (os w))).
  { apply device_of_same; [done|]. intros mp Hmp.
    destruct (within mp (TempDir (os w))) eqn:Ht.
    - by apply (within_trans _ (TempDir (os w))).
    - destruct (within mp tmpDir) eqn:Hs; [|done].
      by rewrite (Hmnt mp Hmp Hs) in Ht. }
  repeat split; auto.
  - rewrite Hfiles. apply lookup_insert_eq.
  - rewrite Hdev. by rewrite (device_of_same (os w) o1 root root).
  - rewrite Hdev. by rewrite (device_of_same (os w) o1 root root).
  - by apply installStable_staged.
  - by apply installExperiment_staged.
Qed.

(** The payload streams of a layer list, one layer at a time. *)
Lemma payload_streams_payload layer rest r :
  MediaType layer = Ok datadogPackageLayerMediaType →
  Uncompressed layer = Ok r →
  payload_streams (layer :: rest) = r :: payload_streams rest.
Proof.
  intros Hmt Hun. unfold payload_streams, is_payload. simpl.
  rewrite Hmt, Hun. by rewrite bool_decide_eq_true_2.
Qed.

Lemma payload_streams_other layer rest mt :
  MediaType layer = Ok mt → mt ≠ datadogPackageLayerMediaType →
  payload_streams (layer :: rest) = payload_streams rest.
Proof.
  intros Hmt Hne. unfold payload_streams, is_payload. simpl.
  rewrite Hmt. by rewrite bool_decide_eq_false_2.
Qed.

(** On layers whose media types can be read and whose payload streams
    open, the loop does to the operating system what extracting the
    payload streams in order does, and returns its error. *)
Lemma extractLayers_streams layers dir w :
  Forall (λ layer, ∃ mt, MediaType layer = Ok mt
            ∧ (mt = datadogPackageLayerMediaType →
               ∃ r, Uncompressed layer = Ok r)) layers →
  fst (extractLayers layers dir w)
  = match fst (extract_streams extractTarArchive (payload_streams layers)
                 dir (os w)) with
    | None => Ok tt
    | Some e => Err e
    end
  ∧ os (snd (extractLayers layers dir w))
    = snd (extract_streams extractTarArchive (payload_streams layers)
             dir (os w)).
Proof.
  intros Hall. revert w.
  induction Hall as [|layer rest (mt & Hmt & Hpay) _ IH]; intros w; [done|].
  destruct (decide (mt = datadogPackageLayerMediaType)) as [->|Hne].
  - destruct (Hpay eq_refl) as [r Hun].
    rewrite (extractLayers_payload _ _ r) by done.
    rewrite (payload_streams_payload _ _ r) by done. simpl.
    destruct (extractTarArchive r dir datadogPackageMaxSize (os w))
      as [[e|] o]; [done|].
    apply (IH {| os := o;
                 trace := trace w ++ [EvExtractTar r dir datadogPackageMaxSize] |}).
  - rewrite (extractLayers_other _ _ mt) by done.
    rewrite (payload_streams_other _ _ mt) by done. apply IH.
Qed.

Lemma extractLayers_no_payload layers dir w :
  Forall (λ layer, ∃ mt, MediaType layer = Ok mt
                         ∧ mt ≠ datadogPackageLayerMediaType) layers →
  extractLayers layers dir w = (Ok tt, w).
Proof.
  intros Hf. revert w.
  induction Hf as [|layer rest (mt & Hmt & Hne) _ IH]; intros w; [done|].
  rewrite (extractLayers_other _ _ mt) by done. apply IH.
Qed.

Lemma extractLayers_empty_payload layers dir w :
  (∀ d o, extractTarArchive [] d datadogPackageMaxSize o = (None, o)) →
  Forall (λ layer, ∃ mt, MediaType layer = Ok mt
            ∧ (mt = datadogPackageLayerMediaType →
               Uncompressed layer = Ok [])) layers →
  fst (extractLayers layers dir w) = Ok tt
  ∧ os (snd (extractLayers layers dir w)) = os w.
Proof.
  intros Hempty Hf. revert w.
  induction Hf as [|layer rest (mt & Hmt & Hun) _ IH]; intros w; [done|].
  destruct (decide (mt = datadogPackageLayerMediaType)) as [->|Hne].
  - rewrite (extractLayers_payload _ _ []) by auto.
    rewrite Hempty.
    by destruct (IH {| os := os w;
              trace := trace w ++ [EvExtractTar [] dir datadogPackageMaxSize] |})
      as [-> ->].
  - rewrite (extractLayers_other _ _ mt) by done. apply IH.
Qed.

End Install.

(** ** The extractor of the specification *)

Import SpecModel Samples.

Lemma within_joinPath dir name : within dir (joinPath dir name) = true.
Proof. rewrite joinPath_app. apply within_below. Qed.

Lemma writeEntries_outside r dir o p :
  within dir p = false →
  files (snd (writeEntries r dir o)) !! p = files o !! p.
Proof.
  intros Hp. revert o. induction r as [|e r IH]; intros o; simpl; [done|].
  destruct (entry_accepted e); [|done].
  rewrite IH. simpl. apply lookup_insert_ne. intros <-.
  by rewrite within_joinPath in Hp.
Qed.

Lemma spec_confined : confined extractTarArchive.
Proof.
  intros r dir maxSize o p Hp. unfold extractTarArchive.
  destruct (maxSize <? stream_size r)%Z; [done|].
  by apply writeEntries_outside.
Qed.

Lemma writeEntries_error r dir o e :
  fst (writeEntries r dir o) = Some e → e = ErrLeaf PayloadMalicious.
Proof.
  revert o. induction r as [|x r IH]; intros o; simpl; [done|].
  destruct (entry_accepted x); [apply IH|]. by intros [= <-].
Qed.

Lemma extractLayers_app (helper : Reader → string → Z → OS → option error * OS)
    before after dir w :
  extractLayers helper (before ++ after) dir w
  = match extractLayers helper before dir w with
    | (Ok _, w1) => extractLayers helper after dir w1
    | (Err e, w1) => (Err e, w1)
    end.
Proof.
  revert w. induction before as [|layer rest IH]; intros w; [done|].
  rewrite <- app_comm_cons.
  destruct (MediaType layer) as [mt|e] eqn:Hmt.
  - destruct (decide (mt = datadogPackageLayerMediaType)) as [->|Hne].
    + destruct (Uncompressed layer) as [r|e] eqn:Hun.
      * rewrite !(extractLayers_payload helper _ _ r) by done.
        destruct (helper r dir datadogPackageMaxSize (os w)) as [[e|] o];
          [done|apply IH].
      * simpl. rewrite Hmt, decide_True by done. by rewrite Hun.
    + rewrite !(extractLayers_other helper _ _ mt) by done. apply IH.
  - simpl. by rewrite Hmt.
Qed.

(** C8: [extractPackageLayers] processes the layers whose media type is
    the package layer media type, and only those. The calls of the tar
    extractor it makes are, in layer order, those for these layers, each
    with its uncompressed stream and the destination: all of them when it
    succeeds, the first few when it stops on an error. When every media
    type can be read and every payload stream opens, its result and what
    it does to the file system are those of extracting the payload streams
    one after the other, stopping at the first refusal. With no payload
    layer it succeeds and changes nothing. With payload layers that are
    all empty it succeeds and leaves the file system as it was, for every
    extractor that does nothing on an empty stream, as the one of the
    specification does. *)
Theorem payload_layers_only
    (extract : Reader → string → Z → OS → option error * OS)
    image layers dir w :
  Layers image = Ok layers →
  let run := extractPackageLayers extract image dir w in
  let empty_payloads :=
    Forall (λ layer, ∃ mt, MediaType layer = Ok mt
              ∧ (mt = datadogPackageLayerMediaType →
                 Uncompressed layer = Ok [])) layers in
  (∃ k, trace (snd run) = trace w ++ take k (extract_events dir layers))
  ∧ (fst run = Ok tt → trace (snd run) = trace w ++ extract_events dir layers)
  ∧ (Forall (λ layer, ∃ mt, MediaType layer = Ok mt
               ∧ (mt = datadogPackageLayerMediaType →
                  ∃ r, Uncompressed layer = Ok r)) layers →
     fst run
     = match fst (extract_streams extract (payload_streams layers) dir (os w)) with
       | None => Ok tt
       | Some e => Err e
       end
     ∧ os (snd run)
       = snd (extract_streams extract (payload_streams layers) dir (os w)))
  ∧ (Forall (λ layer, ∃ mt, MediaType layer = Ok mt
               ∧ mt ≠ datadogPackageLayerMediaType) layers →
     run = (Ok tt, w))
  ∧ ((∀ d o, extract [] d datadogPackageMaxSize o = (None, o)) →
     empty_payloads → fst run = Ok tt ∧ os (snd run) = os w)
  ∧ (empty_payloads →
     fst (extractPackageLayers extractTarArchive image dir w) = Ok tt
     ∧ os (snd (extractPackageLayers extractTarArchive image dir w)) = os w).
Proof.
  intros Hl run empty_payloads.
  unfold run, extractPackageLayers. rewrite Hl.
  destruct (extractLayers_trace extract layers dir w) as (k & Hk & Hall).
  split; [by exists k|]. split; [done|].
  split; [apply extractLayers_streams|].
  split; [apply extractLayers_no_payload|].
  split; [apply extractLayers_empty_payload|].
  apply extractLayers_empty_payload. intros d o. reflexivity.
Qed.

(** C4 (as amended): the budget of 3 GiB is enforced on each payload
    layer by itself. When extraction reaches a payload layer whose
    uncompressed stream is longer than 3 GiB it aborts with a
    payload-too-large error and writes no byte of that layer; what the
    layers before it wrote stays in the destination. A layer within the
    budget is never refused for its size, whatever was written before. *)
Theorem budget_per_layer :
  (∀ image before layer after r dir w w1,
     Layers image = Ok (before ++ layer :: after) →
     extractLayers extractTarArchive before dir w = (Ok tt, w1) →
     MediaType layer = Ok datadogPackageLayerMediaType →
     Uncompressed layer = Ok r →
     (datadogPackageMaxSize < stream_size r)%Z →
     extractPackageLayers extractTarArchive image dir w
     = (Err (Errorf "could not extract layer" (ErrLeaf PayloadTooLarge)),
        {| os := os w1;
           trace := trace w1 ++ [EvExtractTar r dir datadogPackageMaxSize] |}))
  ∧ (∀ r dir o,
       (stream_size r ≤ datadogPackageMaxSize)%Z →
       fst (extractTarArchive r dir datadogPackageMaxSize o)
       ≠ Some (ErrLeaf PayloadTooLarge)).
Proof.
  split.
  - intros image before layer after r dir w w1 Hl Hbefore Hmt Hun Hbig.
    unfold extractPackageLayers. rewrite Hl, extractLayers_app, Hbefore.
    rewrite (extractLayers_payload _ _ _ r) by done.
    unfold extractTarArchive.
    by rewrite (proj2 (Z.ltb_lt _ _) Hbig).
  - intros r dir o Hfit. unfold extractTarArchive.
    rewrite (proj2 (Z.ltb_ge _ _) Hfit). intros Herr.
    by apply writeEntries_error in Herr.
Qed.


(** ** Bytes on disk *)

Lemma disk_usage_insert dir p n (fs : gmap string node) :
  fs !! p = None →
  disk_usage dir (<[p := n]> fs)
  = if within dir p then (node_bytes n + disk_usage dir fs)%Z
    else disk_usage dir fs.
Proof.
  intros Hp. unfold disk_usage.
  rewrite map_fold_insert_L; [done| |done].
  intros j1 j2 z1 z2 y _ _ _.
  destruct (within dir j1), (within dir j2); lia.
Qed.

Lemma append_inj a b c : a +:+ b = a +:+ c → b = c.
Proof.
  induction a as [|x a IH]; [done|].
  rewrite !append_cons. intros [= H]. by apply IH.
Qed.

Lemma joinPath_inj dir a b : joinPath dir a = joinPath dir b → a = b.
Proof. rewrite (joinPath_app dir a), (joinPath_app dir b). apply append_inj. Qed.

Lemma nth_name_length i : String.length (nth_name i) = S i.
Proof. induction i as [|i IH]; simpl; [done|by rewrite IH]. Qed.

Lemma nth_name_inj i j : nth_name i = nth_name j → i = j.
Proof.
  intros H. apply (f_equal String.length) in H.
  rewrite !nth_name_length in H. lia.
Qed.

Lemma nth_name_safe i : path_unsafe (nth_name i) = false.
Proof.
  unfold path_unsafe. apply orb_false_iff. split.
  - by destruct i.
  - induction i as [|i IH]; [done|]. simpl. exact IH.
Qed.

Lemma extract_full_layer dir k o :
  extractTarArchive [mkEntry (nth_name k) TypeReg datadogPackageMaxSize]
    dir datadogPackageMaxSize o
  = (None,
     set_files (insert (joinPath dir (nth_name k)) (File datadogPackageMaxSize)) o).
Proof.
  unfold extractTarArchive.
  replace (datadogPackageMaxSize
           <? stream_size [mkEntry (nth_name k) TypeReg datadogPackageMaxSize])%Z
    with false by (symmetry; apply Z.ltb_ge; simpl; lia).
  unfold writeEntries, entry_accepted. simpl entryName. simpl entryType.
  by rewrite nth_name_safe.
Qed.

(** Extracting [n] layers, each one file of exactly the budget, under
    names not yet taken, succeeds and adds [n] times the budget. *)
Lemma full_layers_run dir n k w :
  (∀ j, (k ≤ j)%nat → files (os w) !! joinPath dir (nth_name j) = None) →
  fst (extractLayers extractTarArchive (full_layer <$> seq k n) dir w) = Ok tt
  ∧ disk_usage dir
      (files (os (snd (extractLayers extractTarArchive (full_layer <$> seq k n) dir w))))
    = (disk_usage dir (files (os w)) + Z.of_nat n * datadogPackageMaxSize)%Z.
Proof.
  revert k w. induction n as [|n IH]; intros k w Hfree.
  - simpl. split; [done|lia].
  - rewrite <- cons_seq, fmap_cons.
    rewrite (extractLayers_payload _ _ _
               [mkEntry (nth_name k) TypeReg datadogPackageMaxSize]) by done.
    rewrite extract_full_layer.
    set (w' := {| os := set_files _ (os w); trace := _ |}).
    destruct (IH (S k) w') as [Hok Hdu].
    { intros j Hj. simpl. rewrite lookup_insert_ne; [apply Hfree; lia|].
      intros Heq. apply joinPath_inj, nth_name_inj in Heq. lia. }
    split; [exact Hok|]. rewrite Hdu. simpl files.
    rewrite disk_usage_insert by (apply Hfree; lia).
    rewrite within_joinPath. simpl node_bytes. lia.
Qed.

(** C10: every call of the tar extractor made by [extractPackageLayers]
    carries the whole package budget of 3 GiB, whatever the layers before
    it wrote. With the extractor of the specification, an image of [n]
    payload layers of 3 GiB each is extracted without error and leaves
    [n] times 3 GiB in the destination. *)
Theorem budget_not_shared :
  datadogPackageMaxSize = (3 * 2 ^ 30)%Z
  ∧ (∀ helper image dir w,
       ∃ evs,
         trace (snd (extractPackageLayers helper image dir w)) = trace w ++ evs
         ∧ Forall (λ ev, ∃ r, ev = EvExtractTar r dir datadogPackageMaxSize) evs)
  ∧ (∀ n,
       let run := extractPackageLayers extractTarArchive (full_image n)
                    "/staging" (start scratch) in
       Layers (full_image n) = Ok (full_layer <$> seq 0 n)
       ∧ length (full_layer <$> seq 0 n) = n
       ∧ Forall (λ layer, is_payload layer = true
                          ∧ ∃ r, Uncompressed layer = Ok r
                                 ∧ stream_size r = datadogPackageMaxSize)
           (full_layer <$> seq 0 n)
       ∧ fst run = Ok tt
       ∧ disk_usage "/staging" (files (os (snd run)))
         = (Z.of_nat n * datadogPackageMaxSize)%Z).
Proof.
  split; [done|]. split.
  - intros helper image dir w.
    destruct (extractPackageLayers_trace helper image dir w)
      as (k & layers & Htr & _).
    exists (take k (extract_events dir layers)). split; [done|].
    apply Forall_take. unfold extract_events. apply Forall_fmap.
    apply Forall_forall. intros r _. by exists r.
  - intros n run. split; [done|]. split; [by rewrite length_fmap, length_seq|].
    split.
    + apply Forall_fmap, Forall_forall. intros i _. split; [done|].
      eexists. split; [done|]. simpl. lia.
    + destruct (full_layers_run "/staging" n 0 (start scratch)) as [Hok Hdu].
      { intros j _. simpl. apply lookup_singleton_ne.
        rewrite joinPath_app. destruct (nth_name j); discriminate. }
      change run with (extractLayers extractTarArchive (full_layer <$> seq 0 n)
                         "/staging" (start scratch)).
      split; [exact Hok|]. rewrite Hdu. simpl files. unfold disk_usage.
      rewrite map_fold_singleton. simpl. lia.
Qed.


(** ** Concrete runs *)

Lemma flat_host_staging :
  MkdirTemp "" "" flat_host = (Ok "/tmp/1000", snd (MkdirTemp "" "" flat_host)).
Proof. vm_compute. reflexivity. Qed.

(** C3 fails as stated: on a host whose repository root is a mount point
    of its own, the staging directory is made under [/tmp], on another
    device than the root, and the rename into the repository is refused. *)
Lemma staging_off_repository_device :
  let run := installStable extractTarArchive (newInstaller packages)
               "agent" "7.50.0" agent_image (start host) in
  fst (MkdirTemp "" "" host) = Ok "/tmp/1000"
  ∧ trace (snd run)
    = [EvMkdirTemp "/tmp/1000";
       EvExtractTar [mkEntry "bin" TypeDir 0; mkEntry "bin/agent" TypeReg 4]
         "/tmp/1000" datadogPackageMaxSize;
       EvCreate "agent" "7.50.0" "/tmp/1000";
       EvRemoveAll "/tmp/1000"]
  ∧ device_of host "/tmp/1000" = 1%Z
  ∧ device_of host (rootPath packages) = 2%Z
  ∧ fst run = Err (ErrLeaf StagingNotColocated).
Proof. repeat split; vm_compute; reflexivity. Qed.

Lemma staging_in_temp_dir_witness :
  device_of (snd (MkdirTemp "" "" flat_host)) "/tmp/1000"
  = device_of flat_host (TempDir flat_host).
Proof.
  apply (staging_in_temp_dir extractTarArchive (newInstaller packages)
           "agent" "7.50.0" agent_image (start flat_host) "/tmp/1000"
           (snd (MkdirTemp "" "" flat_host)) flat_host_staging).
  intros mp Hmp _. apply list_elem_of_singleton in Hmp. subst mp.
  vm_compute. reflexivity.
Defined.

(** C5 fails as stated: the error of the deferred [os.RemoveAll] is
    dropped, so a staging directory the system does not let go stays
    behind after a failed install. First run: the layer list cannot be
    read and the staging directory itself cannot be removed. Second run:
    the first layer wrote a file that cannot be unlinked, the second layer
    is beyond the budget. *)
Lemma staging_left_behind :
  let run1 := installStable extractTarArchive (newInstaller packages)
                "agent" "7.50.0" broken_image (start stubborn_host) in
  let run2 := installStable extractTarArchive (newInstaller packages)
                "agent" "7.50.0" read_only_image (start read_only_host) in
  (fst run1
   = Err (Errorf "could not extract package layers"
            (Errorf "could not get image layers"
               (ErrLeaf (Opaque "manifest unknown"))))
   ∧ trace (snd run1) = [EvMkdirTemp "/tmp/1000"; EvRemoveAll "/tmp/1000"]
   ∧ files (os (snd run1)) !! "/tmp/1000" = Some Dir)
  ∧ (fst run2
     = Err (Errorf "could not extract package layers"
              (Errorf "could not extract layer" (ErrLeaf PayloadTooLarge)))
     ∧ files (os (snd run2)) !! "/tmp/1000" = Some Dir
     ∧ files (os (snd run2)) !! "/tmp/1000/ro" = Some Dir
     ∧ files (os (snd run2)) !! "/tmp/1000/ro/f" = Some (File 4)).
Proof. repeat split; vm_compute; reflexivity. Qed.

Lemma staging_removed_on_failure_witness :
  let run := installStable extractTarArchive (newInstaller packages)
               "agent" "7.50.0" oversized_image (start flat_host) in
  files (os (snd run)) !! "/tmp/1000" = None
  ∧ fst run
    = Err (Errorf "could not extract package layers"
             (Errorf "could not extract layer" (ErrLeaf PayloadTooLarge)))
  ∧ no_transition_since (start flat_host) (snd run)
  ∧ same_outside "/tmp/1000" flat_host (os (snd run)).
Proof.
  intros run.
  destruct (staging_removed_on_failure extractTarArchive (newInstaller packages)
              "agent" "7.50.0" oversized_image (start flat_host) "/tmp/1000"
              (snd (MkdirTemp "" "" flat_host)) flat_host_staging)
    as ([_ Hclean] & _ & Hfail & _).
  split.
  { apply Hclean; [|vm_compute; reflexivity]. intros q _. vm_compute. reflexivity. }
  edestruct Hfail as (Hres & _ & [Hno Hout] & _); [vm_compute; reflexivity|].
  split; [exact Hres|]. split; [exact Hno|exact (Hout spec_confined)].
Defined.

Lemma payload_layers_only_witness :
  let run := extractPackageLayers extractTarArchive agent_image "/staging"
               (start scratch) in
  trace (snd run)
  = [EvExtractTar [mkEntry "bin" TypeDir 0; mkEntry "bin/agent" TypeReg 4]
       "/staging" datadogPackageMaxSize]
  ∧ fst run = Ok tt
  ∧ files (os (snd run)) !! "/staging/bin/agent" = Some (File 4)
  ∧ files (os (snd run)) !! "/staging/config.json" = None
  ∧ fst (extractPackageLayers extractTarArchive oversized_image "/staging"
           (start scratch))
    = Err (Errorf "could not extract layer" (ErrLeaf PayloadTooLarge))
  ∧ extractPackageLayers extractTarArchive bare_image "/staging" (start scratch)
    = (Ok tt, start scratch)
  ∧ os (snd (extractPackageLayers extractTarArchive empty_payload_image "/staging"
               (start scratch))) = scratch.
Proof.
  intros run.
  destruct (payload_layers_only extractTarArchive agent_image
              [config_layer;
               payload [mkEntry "bin" TypeDir 0; mkEntry "bin/agent" TypeReg 4]]
              "/staging" (start scratch) eq_refl)
    as (_ & Htrace & Hstreams & _).
  destruct Hstreams as [Hres Hos].
  { repeat constructor.
    - eexists. split; [reflexivity|discriminate].
    - eexists. split; [reflexivity|]. intros _. eexists. reflexivity. }
  fold run in Htrace, Hres, Hos.
  assert (Hok : fst run = Ok tt) by (rewrite Hres; vm_compute; reflexivity).
  split; [by rewrite (Htrace Hok)|]. split; [exact Hok|].
  split; [rewrite Hos; vm_compute; reflexivity|].
  split; [rewrite Hos; vm_compute; reflexivity|].
  split; [|split].
  - destruct (payload_layers_only extractTarArchive oversized_image
                [payload [mkEntry "a" TypeReg (4 * GiB)]]
                "/staging" (start scratch) eq_refl)
      as (_ & _ & Hbig & _).
    destruct Hbig as [-> _].
    { repeat constructor. eexists. split; [reflexivity|]. intros _.
      eexists. reflexivity. }
    vm_compute. reflexivity.
  - refine (proj1 (proj2 (proj2 (proj2 (payload_layers_only extractTarArchive
              bare_image [config_layer] "/staging" (start scratch) eq_refl)))) _).
    repeat constructor. eexists. split; [reflexivity|discriminate].
  - refine (proj2 (proj2 (proj2 (proj2 (proj2 (proj2 (payload_layers_only
              extractTarArchive empty_payload_image [payload []] "/staging"
              (start scratch) eq_refl))))) _)).
    repeat constructor. eexists. split; [reflexivity|]. intros _. reflexivity.
Defined.

(** C4 fails as stated: two payload layers of 2 GiB each make a payload
    of 4 GiB, above the budget, and the extraction succeeds and leaves
    4 GiB in the destination. *)
Lemma two_layers_over_budget :
  let run := extractPackageLayers extractTarArchive two_layer_image
               "/staging" (start scratch) in
  payload_streams [payload [mkEntry "a" TypeReg (2 * GiB)];
                   payload [mkEntry "b" TypeReg (2 * GiB)]]
  = [[mkEntry "a" TypeReg (2 * GiB)]; [mkEntry "b" TypeReg (2 * GiB)]]
  ∧ (stream_size [mkEntry "a" TypeReg (2 * GiB)]
     + stream_size [mkEntry "b" TypeReg (2 * GiB)] = 4 * GiB)%Z
  ∧ (datadogPackageMaxSize < 4 * GiB)%Z
  ∧ fst run = Ok tt
  ∧ disk_usage "/staging" (files (os (snd run))) = (4 * GiB)%Z.
Proof. repeat split; vm_compute; reflexivity. Qed.

Lemma budget_per_layer_witness :
  let run := extractPackageLayers extractTarArchive late_oversized_image
               "/staging" (start scratch) in
  fst run = Err (Errorf "could not extract layer" (ErrLeaf PayloadTooLarge))
  ∧ disk_usage "/staging" (files (os (snd run))) = (2 * GiB)%Z.
Proof.
  intros run. unfold run.
  rewrite (proj1 budget_per_layer late_oversized_image
             [payload [mkEntry "a" TypeReg (2 * GiB)]]
             (payload [mkEntry "b" TypeReg (4 * GiB)]) []
             [mkEntry "b" TypeReg (4 * GiB)] "/staging" (start scratch)
             (snd (extractLayers extractTarArchive
                     [payload [mkEntry "a" TypeReg (2 * GiB)]]
                     "/staging" (start scratch)))).
  - split; [reflexivity|]. vm_compute. reflexivity.
  - reflexivity.
  - vm_compute. reflexivity.
  - reflexivity.
  - reflexivity.
  - vm_compute. reflexivity.
Defined.

End InstallerFacts.

(** * Further properties of the catalog client *)

Module CatalogExtra.
Import OrgConfig CatalogFacts.

Lemma findPackage_app_l pkg version l1 l2 p :
  findPackage pkg version l1 = Some p →
  findPackage pkg version (l1 ++ l2) = Some p.
Proof.
  induction l1 as [|q l1 IH]; simpl; [done|].
  destruct (matches pkg version q); [done|apply IH].
Qed.

Lemma findPackage_is_Some pkg version ps :
  is_Some (findPackage pkg version ps)
  ↔ ∃ q, q ∈ ps ∧ Name q = pkg ∧ Version q = version.
Proof.
  induction ps as [|q ps IH]; simpl.
  - split; [by intros [? ?]|]. intros (q & Hq & _). by apply elem_of_nil in Hq.
  - destruct (matches pkg version q) eqn:Hm.
    + apply matches_spec in Hm. split; [|eauto].
      intros _. exists q. split; [apply elem_of_cons; by left|done].
    + rewrite IH. split.
      * intros (r & Hr & ?). exists r. split; [apply elem_of_cons; by right|done].
      * intros (r & Hr & Hn & Hv). apply elem_of_cons in Hr as [->|Hr].
        -- assert (matches pkg version q = true) by by apply matches_spec.
           congruence.
        -- eauto.
Qed.

Lemma findPackage_member p ps :
  p ∈ ps →
  ∃ q, findPackage (Name p) (Version p) ps = Some q
       ∧ Name q = Name p ∧ Version q = Version p.
Proof.
  intros Hp.
  destruct (proj2 (findPackage_is_Some (Name p) (Version p) ps)) as [q Hq];
    [by exists p|].
  exists q. split; [done|].
  by destruct (findPackage_Some _ _ _ _ Hq) as (_ & _ & _ & ? & ? & _).
Qed.

Lemma elem_of_concat {A} (x : A) (l : list A) (ls : list (list A)) :
  x ∈ l → l ∈ ls → x ∈ concat ls.
Proof.
  intros Hx. induction ls as [|l' ls IH]; simpl.
  - intros Hl. by apply elem_of_nil in Hl.
  - intros Hl. apply elem_of_app. apply elem_of_cons in Hl as [<-|Hl]; auto.
Qed.

Lemma NoDup_fmap_member {A B} (f : A → B) (l : list A) x y :
  NoDup (f <$> l) → x ∈ l → y ∈ l → f x = f y → x = y.
Proof.
  induction l as [|a l IH]; [by intros _ Hx%elem_of_nil|].
  rewrite fmap_cons, NoDup_cons. intros [Hnotin Hnd] Hx Hy Hf.
  apply elem_of_cons in Hx as [->|Hx]; apply elem_of_cons in Hy as [->|Hy].
  - done.
  - exfalso. apply Hnotin. rewrite Hf. apply list_elem_of_fmap. by exists y.
  - exfalso. apply Hnotin. rewrite <- Hf. apply list_elem_of_fmap. by exists x.
  - by apply IH.
Qed.

(** Among entries of pairwise different name and version, the order does
    not decide which entry a lookup returns. *)
Lemma findPackage_Permutation pkg version (l l' : list Package) :
  l ≡ₚ l' →
  NoDup ((λ p, (Name p, Version p)) <$> l) →
  findPackage pkg version l = findPackage pkg version l'.
Proof.
  intros Hperm Hnd.
  destruct (findPackage pkg version l) as [p|] eqn:Hl.
  - destruct (findPackage_Some _ _ _ _ Hl) as (b & a & Hps & Hn & Hv & _).
    assert (Hp : p ∈ l).
    { rewrite Hps. apply elem_of_app. right. apply elem_of_cons. by left. }
    destruct (proj2 (findPackage_is_Some pkg version l')) as [q Hq].
    { exists p. by rewrite <- Hperm. }
    rewrite Hq. f_equal.
    destruct (findPackage_Some _ _ _ _ Hq) as (b' & a' & Hps' & Hn' & Hv' & _).
    assert (Hq' : q ∈ l).
    { rewrite Hperm, Hps'. apply elem_of_app. right. apply elem_of_cons. by left. }
    apply (NoDup_fmap_member (λ p, (Name p, Version p)) l p q Hnd Hp Hq').
    simpl. congruence.
  - destruct (findPackage pkg version l') as [q|] eqn:Hl'; [|done].
    destruct (proj1 (findPackage_is_Some pkg version l')) as (r & Hr & Hn & Hv);
      [by exists q|].
    destruct (proj2 (findPackage_is_Some pkg version l)) as [x Hx];
      [exists r; by rewrite Hperm|].
    congruence.
Qed.

Lemma GetPackage_live pick pkg version c :
  latch_open c = true →
  GetPackage pick None pkg version c
  = match findPackage pkg version (Packages (catalog_ c)) with
    | Some p => Ready (p, None)
    | None =>
        Ready (zero_Package,
               Some (ErrNotFound pkg version (Packages (catalog_ c))))
    end.
Proof.
  unfold GetPackage, waitForCatalog, latch_open.
  by destruct (catalogReceived c).
Qed.

Section Update.

Variable unmarshal : string → catalog * option string.
Variable rawCatalog : string.

Abbreviation onCatalogUpdate := (onCatalogUpdate unmarshal rawCatalog).
Abbreviation accepted := (accepted unmarshal).
Abbreviation received := (received unmarshal).
Abbreviation baseline := (baseline unmarshal rawCatalog).
Abbreviation deliver := (deliver unmarshal rawCatalog).
Abbreviation reachable := (reachable unmarshal rawCatalog).

Lemma accepted_state it1 it2 c c' :
  reachable c → accepted it1 = true →
  snd (onCatalogUpdate it1 it2 c) = Some c' →
  latch_open c' = true
  ∧ Packages (catalog_ c') = baseline ++ concat (received <$> it1).
Proof.
  intros Hr Hacc Hs.
  destruct (update_accepted unmarshal rawCatalog it1 it2 c Hacc
              (reachable_consistent _ _ c Hr)) as (c2 & Hs2 & ? & _ & ?).
  rewrite Hs in Hs2. by injection Hs2 as ->.
Qed.

Lemma deliver_catalog ds c :
  consistent c →
  ∃ c', deliver ds c = Some c'
        ∧ Packages (catalog_ c')
          = match last_accepted unmarshal ds with
            | Some d => baseline ++ concat (received <$> first_range d)
            | None => Packages (catalog_ c)
            end.
Proof.
  revert c. induction ds as [|d ds IH]; intros c Hc; simpl.
  - by exists c.
  - destruct (accepted (first_range d)) eqn:Hacc.
    + destruct (update_accepted unmarshal rawCatalog (first_range d)
                  (second_range d) c Hacc Hc) as (c1 & -> & _ & Hc1 & Hcat).
      destruct (IH c1 Hc1) as (c' & -> & Hcat').
      exists c'. split; [done|]. rewrite Hcat'.
      destruct (last_accepted unmarshal ds); [done|exact Hcat].
    + rewrite (update_rejected unmarshal rawCatalog _ (second_range d) c Hacc).
      destruct (IH c Hc) as (c' & -> & Hcat').
      exists c'. split; [done|]. rewrite Hcat'.
      by destruct (last_accepted unmarshal ds).
Qed.

(** X1: after any history of deliveries to a fresh configuration, the
    catalog is the baseline followed by the packages of the last delivery
    that decoded entirely; with no such delivery it is empty, the
    baseline included. *)
Theorem catalog_of_history (ds : list delivery) :
  ∃ c, deliver ds newOrgConfig = Some c
       ∧ Packages (catalog_ c)
         = match last_accepted unmarshal ds with
           | Some d => baseline ++ concat (received <$> first_range d)
           | None => []
           end.
Proof. apply (deliver_catalog ds newOrgConfig). reflexivity. Qed.

(** X2: until a delivery has decoded entirely, no lookup returns an entry
    or a not-found error: with a live context every call blocks, with a
    cancelled one every call fails with the cancellation error. *)
Theorem no_answer_before_acceptance (ds : list delivery) :
  existsb (λ d, accepted (first_range d)) ds = false →
  ∃ c, deliver ds newOrgConfig = Some c
       ∧ ∀ pick ctx pkg version,
           GetPackage pick ctx pkg version c
           = match ctx with
             | None => Blocked
             | Some e => Ready (zero_Package, Some (ErrCanceledWaiting e))
             end.
Proof.
  intros Hnone.
  destruct (deliver_latch unmarshal rawCatalog ds newOrgConfig eq_refl)
    as (c & Hd & _ & Hl & _).
  exists c. split; [done|]. intros pick ctx pkg version.
  rewrite Hnone in Hl. simpl in Hl.
  unfold GetPackage, waitForCatalog, latch_open in *.
  by destruct ctx, (catalogReceived c).
Qed.

(** X3: a delivery of the empty map is accepted: the callback makes no
    reply, the latch is open afterwards and the catalog is the baseline. *)
Theorem empty_delivery it1 it2 c :
  range_order ∅ it1 → range_order ∅ it2 → reachable c →
  ∃ c', onCatalogUpdate it1 it2 c = ([], Some c')
        ∧ latch_open c' = true
        ∧ Packages (catalog_ c') = baseline.
Proof.
  unfold range_order. rewrite map_to_list_empty.
  intros H1%Permutation_nil_r H2%Permutation_nil_r Hr. subst it1 it2.
  destruct (update_accepted unmarshal rawCatalog [] [] c eq_refl
              (reachable_consistent _ _ c Hr)) as (c' & Hs & Hl & _ & Hcat).
  exists c'. split; [|split; [done|]].
  - destruct (onCatalogUpdate [] [] c) as [acks r] eqn:Hu. simpl in Hs.
    subst r. f_equal. unfold OrgConfig.onCatalogUpdate in Hu. simpl in Hu.
    by injection Hu as <- _.
  - rewrite Hcat. simpl. by rewrite app_nil_r.
Qed.

(** X4: entries of the baseline come first: after an accepted delivery,
    a lookup that the baseline alone would answer returns the baseline's
    entry, whatever the received configs hold under that name and
    version. *)
Theorem baseline_wins it1 it2 c c' pick pkg version p :
  reachable c → accepted it1 = true →
  snd (onCatalogUpdate it1 it2 c) = Some c' →
  findPackage pkg version baseline = Some p →
  GetPackage pick None pkg version c' = Ready (p, None).
Proof.
  intros Hr Hacc Hs Hb.
  destruct (accepted_state it1 it2 c c' Hr Hacc Hs) as [Hl Hcat].
  rewrite GetPackage_live by done. rewrite Hcat.
  by rewrite (findPackage_app_l _ _ _ _ p Hb).
Qed.

(** X5: after an accepted delivery every entry of the baseline and every
    entry of every received config can be looked up: the lookup under
    its name and version succeeds and returns an entry of that name and
    version. *)
Theorem delivered_entries_found it1 it2 c c' pick p :
  reachable c → accepted it1 = true →
  snd (onCatalogUpdate it1 it2 c) = Some c' →
  (p ∈ baseline ∨ ∃ kv, kv ∈ it1 ∧ p ∈ received kv) →
  ∃ q, GetPackage pick None (Name p) (Version p) c' = Ready (q, None)
       ∧ Name q = Name p ∧ Version q = Version p.
Proof.
  intros Hr Hacc Hs Hin.
  destruct (accepted_state it1 it2 c c' Hr Hacc Hs) as [Hl Hcat].
  assert (Hp : p ∈ Packages (catalog_ c')).
  { rewrite Hcat. apply elem_of_app. destruct Hin as [?|(kv & Hkv & Hp)]; [by left|].
    right. apply (elem_of_concat p (received kv)); [done|].
    apply list_elem_of_fmap. by exists kv. }
  destruct (findPackage_member p _ Hp) as (q & Hq & ? & ?).
  exists q. rewrite GetPackage_live by done. by rewrite Hq.
Qed.

Lemma accepted_Permutation it it' : it ≡ₚ it' → accepted it = accepted it'.
Proof.
  unfold OrgConfig.accepted.
  induction 1 as [|x l l' _ IH|x y l|l l' l'' _ IH1 _ IH2]; simpl.
  - done.
  - by rewrite IH.
  - by rewrite !andb_assoc, (andb_comm (decodes unmarshal y)).
  - by rewrite IH1.
Qed.

Lemma received_Permutation it it' :
  it ≡ₚ it' → concat (received <$> it) ≡ₚ concat (received <$> it').
Proof.
  induction 1 as [|x l l' _ IH|x y l|l l' l'' _ IH1 _ IH2]; simpl.
  - done.
  - by rewrite IH.
  - rewrite !app_assoc. f_equiv. apply Permutation_app_comm.
  - by rewrite IH1.
Qed.

(** X6: what the order in which Go visits the map decides, and what it
    does not. For two visiting orders of the same configs, the delivery
    is accepted under both or under neither, the latch ends in the same
    state, the catalogs hold the same entries up to their order, and a
    lookup finds an entry under one order exactly when it does under the
    other. The order decides which entry is returned only among entries
    of the same name and version: when no two entries of the catalog
    share both, every lookup returns the same entry under both orders. *)
Theorem visiting_order_irrelevant it1 it1' it2 it2' c :
  reachable c → it1 ≡ₚ it1' →
  accepted it1 = accepted it1'
  ∧ ∃ c1 c2,
      snd (onCatalogUpdate it1 it2 c) = Some c1
      ∧ snd (onCatalogUpdate it1' it2' c) = Some c2
      ∧ latch_open c1 = latch_open c2
      ∧ Packages (catalog_ c1) ≡ₚ Packages (catalog_ c2)
      ∧ (∀ pkg version,
           is_Some (findPackage pkg version (Packages (catalog_ c1)))
           ↔ is_Some (findPackage pkg version (Packages (catalog_ c2))))
      ∧ (NoDup ((λ p, (Name p, Version p)) <$> Packages (catalog_ c1)) →
         ∀ pick ctx pkg version p,
           GetPackage pick ctx pkg version c1 = Ready (p, None)
           ↔ GetPackage pick ctx pkg version c2 = Ready (p, None)).
Proof.
  intros Hr Hperm. pose proof (accepted_Permutation _ _ Hperm) as Hsame.
  split; [done|].
  pose proof (reachable_consistent _ _ c Hr) as Hc.
  destruct (accepted it1) eqn:Hacc.
  - destruct (update_accepted unmarshal rawCatalog it1 it2 c Hacc Hc)
      as (c1 & Hs1 & Hl1 & _ & Hcat1).
    destruct (update_accepted unmarshal rawCatalog it1' it2' c (eq_sym Hsame) Hc)
      as (c2 & Hs2 & Hl2 & _ & Hcat2).
    assert (Hp : Packages (catalog_ c1) ≡ₚ Packages (catalog_ c2)).
    { rewrite Hcat1, Hcat2. f_equiv. by apply received_Permutation. }
    exists c1, c2.
    split; [done|]. split; [done|]. split; [congruence|]. split; [done|].
    split.
    + intros pkg version. rewrite !findPackage_is_Some.
      split; intros (q & Hq & ?); exists q; (split; [|done]).
      * by rewrite <- Hp.
      * by rewrite Hp.
    + intros Hnd pick ctx pkg version p.
      unfold GetPackage, waitForCatalog, latch_open in *.
      rewrite (findPackage_Permutation pkg version _ _ Hp Hnd).
      destruct (catalogReceived c1), (catalogReceived c2); try discriminate.
      destruct ctx as [e|], pick,
        (findPackage pkg version (Packages (catalog_ c2)));
        split; intros H; first [discriminate H|exact H].
  - exists c, c. rewrite !update_rejected by congruence. done.
Qed.

End Update.

Section Defaults.

Variable unmarshal_defaults : string → gmap string string * option string.
Variable rawDefaults : string.

Abbreviation GetDefaultPackage :=
  (GetDefaultPackage unmarshal_defaults rawDefaults).

(** X7: when the embedded defaults do not decode, [GetDefaultPackage]
    fails at once with that error, without waiting for the catalog and
    whatever the context. When they decode, it blocks exactly when the
    context is live and the latch closed, and an entry it returns has the
    requested name and the version the defaults give for that name (the
    empty string for a name they do not list), and is the first such
    entry of the catalog. *)
Theorem GetDefaultPackage_outcome pick ctx pkg c :
  match unmarshal_defaults rawDefaults with
  | (_, Some msg) =>
      GetDefaultPackage pick ctx pkg c
      = Ready (zero_Package, Some (ErrUnmarshalDefaults msg))
  | (defaults, None) =>
      (GetDefaultPackage pick ctx pkg c = Blocked
       ↔ ctx = None ∧ latch_open c = false)
      ∧ ∀ p, GetDefaultPackage pick ctx pkg c = Ready (p, None) →
             latch_open c = true
             ∧ Name p = pkg
             ∧ Version p = index defaults pkg
             ∧ (defaults !! pkg = None → Version p = "")
             ∧ first_match pkg (index defaults pkg) (Packages (catalog_ c)) p
  end.
Proof.
  unfold OrgConfig.GetDefaultPackage.
  destruct (unmarshal_defaults rawDefaults) as [defaults [msg|]] eqn:Hu;
    [done|].
  split.
  - unfold GetPackage, waitForCatalog, latch_open.
    destruct ctx as [e|], (catalogReceived c), pick;
      try destruct (findPackage pkg (index defaults pkg) (Packages (catalog_ c)));
      split; try done; intros [? ?]; done.
  - intros p.
    destruct (GetPackage pick ctx pkg (index defaults pkg) c)
      as [|[q [e|]]] eqn:Hget; try done.
    intros [= ->].
    assert (Hfind : findPackage pkg (index defaults pkg) (Packages (catalog_ c))
                    = Some p ∧ latch_open c = true).
    { unfold GetPackage, waitForCatalog, latch_open in *.
      destruct ctx as [e|], (catalogReceived c), pick; try discriminate;
        destruct (findPackage pkg (index defaults pkg) (Packages (catalog_ c)));
        by inversion Hget. }
    destruct Hfind as [Hfind Hl].
    destruct (findPackage_Some _ _ _ _ Hfind) as (b & a & Hps & Hn & Hv & Hall).
    repeat split; try done.
    + intros Hmiss. rewrite Hv. unfold index. by rewrite Hmiss.
    + by exists b, a.
Qed.

End Defaults.

Section DefaultsAfterDelivery.

Variable unmarshal : string → catalog * option string.
Variable rawCatalog : string.
Variable unmarshal_defaults : string → gmap string string * option string.
Variable rawDefaults : string.

(** X8: the default version of a package can be fetched as soon as a
    delivery is accepted that, with the baseline, holds an entry of that
    name under the version the defaults give: [GetDefaultPackage] then
    returns an entry of that name and version. *)
Theorem default_package_found it1 it2 c c' pick pkg defaults p :
  unmarshal_defaults rawDefaults = (defaults, None) →
  reachable unmarshal rawCatalog c →
  accepted unmarshal it1 = true →
  snd (onCatalogUpdate unmarshal rawCatalog it1 it2 c) = Some c' →
  (p ∈ baseline unmarshal rawCatalog
   ∨ ∃ kv, kv ∈ it1 ∧ p ∈ received unmarshal kv) →
  Name p = pkg → Version p = index defaults pkg →
  ∃ q, GetDefaultPackage unmarshal_defaults rawDefaults pick None pkg c'
       = Ready (q, None)
       ∧ Name q = pkg ∧ Version q = index defaults pkg.
Proof.
  intros Hd Hr Hacc Hs Hin Hn Hv.
  destruct (accepted_state unmarshal rawCatalog it1 it2 c c' Hr Hacc Hs)
    as [Hl Hcat].
  assert (Hp : p ∈ Packages (catalog_ c')).
  { rewrite Hcat. apply elem_of_app.
    destruct Hin as [?|(kv & Hkv & Hp)]; [by left|].
    right. apply (elem_of_concat p (received unmarshal kv)); [done|].
    apply list_elem_of_fmap. by exists kv. }
  destruct (findPackage_member p _ Hp) as (q & Hq & Hqn & Hqv).
  rewrite Hn, Hv in Hq. exists q.
  unfold OrgConfig.GetDefaultPackage. rewrite Hd.
  rewrite GetPackage_live by done. rewrite Hq.
  split; [done|]. split; congruence.
Qed.

End DefaultsAfterDelivery.

(** ** Concrete runs *)

Import Samples.

Lemma no_answer_before_acceptance_witness :
  ∃ c, OrgConfig.deliver sample_unmarshal doc_agent_750 history_bad newOrgConfig
       = Some c
       ∧ GetPackage false None "agent" "7.50.0" c = Blocked.
Proof.
  destruct (no_answer_before_acceptance sample_unmarshal doc_agent_750 history_bad)
    as (c & Hc & Hget); [vm_compute; reflexivity|].
  exists c. split; [exact Hc|apply Hget].
Defined.

Lemma empty_delivery_witness :
  ∃ c', OrgConfig.onCatalogUpdate sample_unmarshal doc_agent_750 [] [] newOrgConfig
        = ([], Some c')
        ∧ latch_open c' = true
        ∧ Packages (catalog_ c') = [agent_750].
Proof.
  apply (empty_delivery sample_unmarshal doc_agent_750 [] [] newOrgConfig).
  - unfold range_order. by rewrite map_to_list_empty.
  - unfold range_order. by rewrite map_to_list_empty.
  - apply reach_new.
Defined.

Lemma baseline_wins_witness :
  GetPackage false None "agent" "7.50.0" merged_state = Ready (agent_750, None).
Proof.
  apply (baseline_wins sample_unmarshal doc_agent_750
           [("a", cfg_ok)] [("a", cfg_ok)] newOrgConfig merged_state
           false "agent" "7.50.0" agent_750).
  - apply reach_new.
  - vm_compute. reflexivity.
  - vm_compute. reflexivity.
  - vm_compute. reflexivity.
Defined.

Lemma delivered_entries_found_witness :
  ∃ q, GetPackage false None "agent" "7.51.0" merged_state = Ready (q, None)
       ∧ Name q = "agent" ∧ Version q = "7.51.0".
Proof.
  apply (delivered_entries_found sample_unmarshal doc_agent_750
           [("a", cfg_ok)] [("a", cfg_ok)] newOrgConfig merged_state
           false agent_751).
  - apply reach_new.
  - vm_compute. reflexivity.
  - vm_compute. reflexivity.
  - right. exists ("a", cfg_ok). split; [apply list_elem_of_singleton; done|].
    vm_compute. apply list_elem_of_singleton. reflexivity.
Defined.

Lemma visiting_order_irrelevant_witness :
  ∃ c1 c2,
    snd (OrgConfig.onCatalogUpdate sample_unmarshal doc_empty
           [("a", cfg_ok); ("c", cfg_750)] [] newOrgConfig) = Some c1
    ∧ snd (OrgConfig.onCatalogUpdate sample_unmarshal doc_empty
             [("c", cfg_750); ("a", cfg_ok)] [] newOrgConfig) = Some c2
    ∧ Packages (catalog_ c1) = [agent_751; agent_750]
    ∧ Packages (catalog_ c2) = [agent_750; agent_751]
    ∧ GetPackage false None "agent" "7.50.0" c1 = Ready (agent_750, None)
    ∧ GetPackage false None "agent" "7.50.0" c2 = Ready (agent_750, None).
Proof.
  destruct (visiting_order_irrelevant sample_unmarshal doc_empty
              [("a", cfg_ok); ("c", cfg_750)] [("c", cfg_750); ("a", cfg_ok)]
              [] [] newOrgConfig (reach_new _ _) (perm_swap _ _ _))
    as (_ & c1 & c2 & H1 & H2 & _ & _ & _ & Hsame).
  exists c1, c2.
  assert (Hc1 : Packages (catalog_ c1) = [agent_751; agent_750]).
  { vm_compute in H1. by injection H1 as <-. }
  assert (Hc2 : Packages (catalog_ c2) = [agent_750; agent_751]).
  { vm_compute in H2. by injection H2 as <-. }
  assert (Hget : GetPackage false None "agent" "7.50.0" c1
                 = Ready (agent_750, None)).
  { vm_compute in H1. injection H1 as <-. vm_compute. reflexivity. }
  repeat split; try assumption.
  apply Hsame; [|exact Hget]. rewrite Hc1. vm_compute.
  apply NoDup_cons. split; [|apply NoDup_singleton].
  intros Hin. apply list_elem_of_singleton in Hin. discriminate Hin.
Defined.

Lemma default_package_found_witness :
  ∃ q, OrgConfig.GetDefaultPackage sample_defaults doc_defaults false None
         "agent" merged_state = Ready (q, None)
       ∧ Name q = "agent" ∧ Version q = "7.51.0".
Proof.
  destruct (default_package_found sample_unmarshal doc_agent_750
              sample_defaults doc_defaults
              [("a", cfg_ok)] [("a", cfg_ok)] newOrgConfig merged_state
              false "agent" {["agent" := "7.51.0"]} agent_751)
    as (q & Hq & Hn & Hv).
  - vm_compute. reflexivity.
  - apply reach_new.
  - vm_compute. reflexivity.
  - vm_compute. reflexivity.
  - right. exists ("a", cfg_ok). split; [apply list_elem_of_singleton; done|].
    vm_compute. apply list_elem_of_singleton. reflexivity.
  - reflexivity.
  - vm_compute. reflexivity.
  - exists q. split; [exact Hq|]. split; [exact Hn|].
    rewrite Hv. vm_compute. reflexivity.
Defined.

End CatalogExtra.

(** * Further properties of the installer *)

Module InstallerExtra.
Import Installer InstallerFacts.

Lemma mkdirTempLoop_Err fuel dir pfx o e o' :
  mkdirTempLoop fuel dir pfx o = (Err e, o') →
  files o' = files o ∧ mounts o' = mounts o ∧ TempDir o' = TempDir o.
Proof.
  revert o. induction fuel as [|fuel IH]; intros o; simpl.
  - by intros [= <- <-].
  - destruct (files o !! (joinPath dir pfx +:+ rand o (drawn o))).
    + intros Hloop. by destruct (IH _ Hloop) as (-> & -> & ->).
    + destruct (files o !! dir) as [[| |]|]; try discriminate;
        by intros [= <- <-].
Qed.

Section Extraction.

Context {Repositories Repository : Type}.
Context `{!RepositoryStore Repositories Repository}.
Variable extractTarArchive : Reader → string → Z → OS → option error * OS.

Abbreviation extractLayers := (extractLayers extractTarArchive).
Abbreviation extractPackageLayers := (extractPackageLayers extractTarArchive).
Abbreviation installStable := (installStable extractTarArchive).
Abbreviation installExperiment := (installExperiment extractTarArchive).

(** X9: when the staging directory cannot be made, both install
    operations fail with that error under "could not create temporary
    directory"; nothing is extracted, the repository is not called, no
    removal is run, and the directory tree is as it was. *)
Theorem install_without_staging i pkg version image w e o1 :
  MkdirTemp "" "" (os w) = (Err e, o1) →
  installStable i pkg version image w
  = (Err (Errorf "could not create temporary directory" e),
     {| os := o1; trace := trace w |})
  ∧ installExperiment i pkg version image w
    = (Err (Errorf "could not create temporary directory" e),
       {| os := o1; trace := trace w |})
  ∧ files o1 = files (os w).
Proof.
  intros Hmk. split; [|split].
  - unfold Installer.installStable, mbind, M_bind, wrapf, os_MkdirTemp.
    by rewrite Hmk.
  - unfold Installer.installExperiment, mbind, M_bind, wrapf, os_MkdirTemp.
    by rewrite Hmk.
  - unfold MkdirTemp in Hmk. by apply mkdirTempLoop_Err in Hmk as (? & _).
Qed.

(** X10: when staging and extraction succeed, the calls are made in this
    order: the staging directory is made, every payload layer is
    extracted into it, the repository transition is called once with
    that directory, and [os.RemoveAll] is called on it last. [installStable]
    returns what [Create] returns and [installExperiment] what
    [SetExperiment] returns, the error not wrapped. *)
Theorem install_calls_in_order i pkg version image layers w tmpDir o1 w2 :
  MkdirTemp "" "" (os w) = (Ok tmpDir, o1) →
  Layers image = Ok layers →
  extractPackageLayers image tmpDir
    {| os := o1; trace := trace w ++ [EvMkdirTemp tmpDir] |} = (Ok tt, w2) →
  let staged := trace w ++ [EvMkdirTemp tmpDir] ++ extract_events tmpDir layers in
  let outcome (r : option error) : result unit :=
    match r with None => Ok tt | Some e => Err e end in
  installStable i pkg version image w
  = (outcome (fst (Create (repositories i) pkg version tmpDir (os w2))),
     {| os := snd (RemoveAll tmpDir
                     (snd (Create (repositories i) pkg version tmpDir (os w2))));
        trace := staged ++ [EvCreate pkg version tmpDir; EvRemoveAll tmpDir] |})
  ∧ ∀ repository,
      Get (repositories i) pkg (os w2) = Ok repository →
      installExperiment i pkg version image w
      = (outcome (fst (SetExperiment repository version tmpDir (os w2))),
         {| os := snd (RemoveAll tmpDir
                         (snd (SetExperiment repository version tmpDir
                                 (os w2))));
            trace := staged ++ [EvGet pkg; EvSetExperiment version tmpDir;
                                EvRemoveAll tmpDir] |}).
Proof.
  intros Hmk Hl Hex staged outcome.
  assert (Htr : trace w2 = staged).
  { pose proof Hex as Hex'. unfold Installer.extractPackageLayers in Hex'.
    rewrite Hl in Hex'.
    destruct (extractLayers_trace extractTarArchive layers tmpDir
                {| os := o1; trace := trace w ++ [EvMkdirTemp tmpDir] |})
      as (_ & _ & Hall).
    rewrite Hex' in Hall. simpl in Hall. rewrite (Hall eq_refl).
    unfold staged. by rewrite <- app_assoc. }
  split.
  - rewrite (installStable_staged _ _ _ _ _ _ _ _ Hmk).
    unfold defer, mbind, M_bind, wrapf, call, os_RemoveAll. rewrite Hex.
    destruct (Create (repositories i) pkg version tmpDir (os w2)) as [r o3].
    simpl. rewrite Htr, <- !app_assoc. done.
  - intros repository Hget.
    rewrite (installExperiment_staged _ _ _ _ _ _ _ _ Hmk).
    unfold defer, mbind, M_bind, wrapf, call, os_RemoveAll, repositories_Get.
    rewrite Hex. simpl. rewrite Hget. simpl.
    destruct (SetExperiment repository version tmpDir (os w2)) as [r o3].
    simpl. rewrite Htr, <- !app_assoc. done.
Qed.

(** X11: every error of [extractPackageLayers] is the error of the call
    that failed, under the message of that call: reading the layer list,
    reading a layer's media type, opening the stream of a payload layer,
    or extracting it. *)
Theorem extraction_error_cause image dir w e w' :
  extractPackageLayers image dir w = (Err e, w') →
  (∃ e0, Layers image = Err e0 ∧ e = Errorf "could not get image layers" e0)
  ∨ ∃ layers layer,
      Layers image = Ok layers ∧ layer ∈ layers
      ∧ layer_failure extractTarArchive dir e layer.
Proof.
  unfold Installer.extractPackageLayers.
  destruct (Layers image) as [layers|e0]; [|intros [= <- _]; left; eauto].
  intros Hex. right. exists layers.
  enough (∃ layer, layer ∈ layers ∧ layer_failure extractTarArchive dir e layer)
    as (layer & ? & ?) by (exists layer; auto).
  revert w Hex. induction layers as [|layer rest IH]; intros w Hex; [done|].
  assert (Hrest : ∀ w1, extractLayers rest dir w1 = (Err e, w') →
            ∃ layer0, layer0 ∈ layer :: rest
                      ∧ layer_failure extractTarArchive dir e layer0).
  { intros w1 H1. destruct (IH w1 H1) as (l0 & Hin & Hcase).
    exists l0. split; [apply elem_of_cons; by right|exact Hcase]. }
  assert (Hhere : layer_failure extractTarArchive dir e layer →
            ∃ layer0, layer0 ∈ layer :: rest
                      ∧ layer_failure extractTarArchive dir e layer0).
  { intros Hf. exists layer. split; [apply elem_of_cons; by left|exact Hf]. }
  destruct (MediaType layer) as [mt|e0] eqn:Hmt.
  - destruct (decide (mt = datadogPackageLayerMediaType)) as [->|Hne].
    + assert (Hpay : is_payload layer = true).
      { unfold is_payload. rewrite Hmt. by apply bool_decide_eq_true_2. }
      destruct (Uncompressed layer) as [r|e0] eqn:Hun.
      * rewrite (extractLayers_payload _ _ _ r) in Hex by done.
        destruct (extractTarArchive r dir datadogPackageMaxSize (os w))
          as [[e0|] o] eqn:Hcall.
        -- injection Hex as <- _. apply Hhere. exists e0.
           right. right. split; [done|]. exists r, (os w).
           by rewrite Hcall.
        -- by apply Hrest in Hex.
      * simpl in Hex. rewrite Hmt, decide_True in Hex by done.
        rewrite Hun in Hex. injection Hex as <- _. apply Hhere. exists e0.
        right. left. auto.
    + rewrite (extractLayers_other _ _ _ mt) in Hex by done.
      by apply Hrest in Hex.
  - simpl in Hex. rewrite Hmt in Hex. injection Hex as <- _.
    apply Hhere. exists e0. left. auto.
Qed.

(** X12: extraction succeeds as soon as every call it makes does: the
    layer list and every media type can be read, every payload layer
    opens, and the extractor accepts every payload stream. *)
Theorem extraction_succeeds image layers dir w :
  Layers image = Ok layers →
  Forall (λ layer,
            ∃ mt, MediaType layer = Ok mt
                  ∧ (mt = datadogPackageLayerMediaType →
                     ∃ r, Uncompressed layer = Ok r
                          ∧ ∀ o, fst (extractTarArchive r dir
                                        datadogPackageMaxSize o) = None))
         layers →
  fst (extractPackageLayers image dir w) = Ok tt.
Proof.
  intros Hl Hall. unfold Installer.extractPackageLayers. rewrite Hl.
  clear Hl. revert w. induction Hall as [|layer rest (mt & Hmt & Hpay) _ IH];
    intros w; [done|].
  destruct (decide (mt = datadogPackageLayerMediaType)) as [->|Hne].
  - destruct (Hpay eq_refl) as (r & Hun & Hok).
    rewrite (extractLayers_payload _ _ _ r) by done.
    specialize (Hok (os w)).
    destruct (extractTarArchive r dir datadogPackageMaxSize (os w))
      as [[e|] o]; [done|apply IH].
  - rewrite (extractLayers_other _ _ _ mt) by done. apply IH.
Qed.

(** X13: the stream of a layer of another media type is never opened:
    two layer lists that agree on the media types and on the streams of
    the payload layers are extracted alike, whatever opening the other
    layers would give. *)
Theorem other_streams_unread layers layers' dir w :
  Forall2 (λ l l', MediaType l = MediaType l'
                   ∧ (is_payload l = true → Uncompressed l = Uncompressed l'))
          layers layers' →
  extractLayers layers dir w = extractLayers layers' dir w.
Proof.
  intros Hsame. revert w.
  induction Hsame as [|l l' rest rest' [Hmt Hun] _ IH]; intros w; [done|].
  simpl. rewrite <- Hmt. destruct (MediaType l) as [mt|e] eqn:Hl; [|done].
  destruct (decide (mt = datadogPackageLayerMediaType)) as [->|Hne];
    [|apply IH].
  rewrite <- Hun by (unfold is_payload; rewrite Hl;
                     by apply bool_decide_eq_true_2).
  destruct (Uncompressed l) as [r|e]; [|done].
  unfold mbind, M_bind, wrapf, call.
  destruct (extractTarArchive r dir datadogPackageMaxSize (os w)) as [[e|] o];
    [done|apply IH].
Qed.

(** X14: layers are extracted one after the other and the first failure
    ends the extraction: on the layers [before ++ after], a failure on
    [before] is the result and [after] is not looked at; otherwise the
    result is that of [after] in the world [before] left. *)
Theorem extraction_in_sequence before after dir w :
  (∀ e w1, extractLayers before dir w = (Err e, w1) →
           extractLayers (before ++ after) dir w = (Err e, w1))
  ∧ (∀ w1, extractLayers before dir w = (Ok tt, w1) →
           extractLayers (before ++ after) dir w = extractLayers after dir w1).
Proof.
  split; intros; rewrite extractLayers_app;
    match goal with H : extractLayers _ _ _ = _ |- _ => by rewrite H end.
Qed.

(** X16: the removal of a staging directory that was made is always
    called: the calls of an install operation are either none (the
    directory could not be made) or begin with the making of a directory
    and end with [os.RemoveAll] on that same directory, with no other
    making or removal in between. *)
Theorem staging_made_and_removed i pkg version image w :
  let inner (ev : event) : Prop :=
    match ev with
    | EvMkdirTemp _ | EvRemoveAll _ => False
    | _ => True
    end in
  let bracketed (run : result unit * World) : Prop :=
    trace (snd run) = trace w
    ∨ ∃ tmpDir mid,
        trace (snd run)
        = trace w ++ [EvMkdirTemp tmpDir] ++ mid ++ [EvRemoveAll tmpDir]
        ∧ Forall inner mid in
  bracketed (installStable i pkg version image w)
  ∧ bracketed (installExperiment i pkg version image w).
Proof.
  intros inner bracketed.
  destruct (MkdirTemp "" "" (os w)) as [[tmpDir|e] o1] eqn:Hmk.
  - assert (Hmid : ∀ k layers,
              Forall inner (take k (extract_events tmpDir layers))).
    { intros k layers. apply Forall_take. unfold extract_events.
      apply Forall_fmap. by apply Forall_true. }
    destruct (extractPackageLayers_trace extractTarArchive image tmpDir
                {| os := o1; trace := trace w ++ [EvMkdirTemp tmpDir] |})
      as (k & layers & Htr & _).
    split; right; exists tmpDir.
    + rewrite (installStable_staged _ _ _ _ _ _ _ _ Hmk).
      unfold defer, mbind, M_bind, wrapf, call, os_RemoveAll.
      destruct (extractPackageLayers image tmpDir _) as [[[]|e] w2];
        simpl in *.
      * destruct (Create (repositories i) pkg version tmpDir (os w2))
          as [r o3]. simpl.
        exists (take k (extract_events tmpDir layers)
                ++ [EvCreate pkg version tmpDir]).
        split; [by rewrite Htr, <- !app_assoc|].
        apply Forall_app. split; [apply Hmid|by repeat constructor].
      * exists (take k (extract_events tmpDir layers)).
        split; [by rewrite Htr, <- !app_assoc|apply Hmid].
    + rewrite (installExperiment_staged _ _ _ _ _ _ _ _ Hmk).
      unfold defer, mbind, M_bind, wrapf, call, os_RemoveAll, repositories_Get.
      destruct (extractPackageLayers image tmpDir _) as [[[]|e] w2];
        simpl in *.
      * destruct (Get (repositories i) pkg (os w2)) as [repository|e]; simpl.
        -- destruct (SetExperiment repository version tmpDir (os w2))
             as [r o3]. simpl.
           exists (take k (extract_events tmpDir layers)
                   ++ [EvGet pkg; EvSetExperiment version tmpDir]).
           split; [by rewrite Htr, <- !app_assoc|].
           apply Forall_app. split; [apply Hmid|by repeat constructor].
        -- exists (take k (extract_events tmpDir layers) ++ [EvGet pkg]).
           split; [by rewrite Htr, <- !app_assoc|].
           apply Forall_app. split; [apply Hmid|by repeat constructor].
      * exists (take k (extract_events tmpDir layers)).
        split; [by rewrite Htr, <- !app_assoc|apply Hmid].
  - split; left.
    + unfold Installer.installStable, mbind, M_bind, wrapf, os_MkdirTemp.
      by rewrite Hmk.
    + unfold Installer.installExperiment, mbind, M_bind, wrapf, os_MkdirTemp.
      by rewrite Hmk.
Qed.

End Extraction.

(** ** Concrete runs *)

Import SpecModel Samples.

Lemma install_without_staging_witness :
  installStable extractTarArchive (newInstaller packages) "agent" "7.50.0"
    agent_image (start no_tmp_host)
  = (Err (Errorf "could not create temporary directory" (ErrLeaf ErrNotExist)),
     {| os := snd (MkdirTemp "" "" no_tmp_host); trace := [] |}).
Proof.
  apply (install_without_staging extractTarArchive (newInstaller packages)
           "agent" "7.50.0" agent_image (start no_tmp_host)
           (ErrLeaf ErrNotExist) (snd (MkdirTemp "" "" no_tmp_host))).
  vm_compute. reflexivity.
Defined.

Lemma install_calls_in_order_witness :
  trace (snd (installStable extractTarArchive (newInstaller packages)
                "agent" "7.50.0" agent_image (start flat_host)))
  = [EvMkdirTemp "/tmp/1000";
     EvExtractTar [mkEntry "bin" TypeDir 0; mkEntry "bin/agent" TypeReg 4]
       "/tmp/1000" datadogPackageMaxSize;
     EvCreate "agent" "7.50.0" "/tmp/1000";
     EvRemoveAll "/tmp/1000"].
Proof.
  rewrite (proj1 (install_calls_in_order extractTarArchive
             (newInstaller packages) "agent" "7.50.0" agent_image
             [config_layer;
              payload [mkEntry "bin" TypeDir 0; mkEntry "bin/agent" TypeReg 4]]
             (start flat_host) "/tmp/1000" (snd (MkdirTemp "" "" flat_host))
             (snd (extractPackageLayers extractTarArchive agent_image "/tmp/1000"
                     {| os := snd (MkdirTemp "" "" flat_host);
                        trace := [EvMkdirTemp "/tmp/1000"] |}))
             flat_host_staging eq_refl eq_refl)).
  reflexivity.
Defined.

Lemma extraction_error_cause_witness :
  (∃ e0, Layers oversized_image = Err e0
         ∧ Errorf "could not extract layer" (ErrLeaf PayloadTooLarge)
           = Errorf "could not get image layers" e0)
  ∨ ∃ layers layer,
      Layers oversized_image = Ok layers ∧ layer ∈ layers
      ∧ layer_failure extractTarArchive "/staging"
          (Errorf "could not extract layer" (ErrLeaf PayloadTooLarge)) layer.
Proof.
  apply (extraction_error_cause extractTarArchive oversized_image "/staging"
           (start scratch) _
           (snd (extractPackageLayers extractTarArchive oversized_image
                   "/staging" (start scratch)))).
  vm_compute. reflexivity.
Defined.

Lemma extraction_succeeds_witness :
  fst (extractPackageLayers extractTarArchive agent_image "/staging"
         (start scratch)) = Ok tt.
Proof.
  apply (extraction_succeeds extractTarArchive agent_image
           [config_layer;
            payload [mkEntry "bin" TypeDir 0; mkEntry "bin/agent" TypeReg 4]]
           "/staging" (start scratch) eq_refl).
  repeat constructor.
  - eexists. split; [reflexivity|discriminate].
  - eexists. split; [reflexivity|]. intros _. eexists. split; [reflexivity|].
    intros o. reflexivity.
Defined.

Lemma other_streams_unread_witness :
  extractLayers extractTarArchive
    [sealed_layer; payload [mkEntry "bin/agent" TypeReg 4]] "/staging"
    (start scratch)
  = extractLayers extractTarArchive
      [config_layer; payload [mkEntry "bin/agent" TypeReg 4]] "/staging"
      (start scratch).
Proof.
  apply (other_streams_unread extractTarArchive).
  repeat constructor; discriminate.
Defined.

End InstallerExtra.
